(** * sanity-plugin-easy-preview: the preview action, verified

    A shallow embedding of [src/index.ts]: the secret generator, the
    dot-path slug resolver, the expired-secret sweep, the preview handler
    and the document action, followed by the properties the specification
    states about them.

    Conventions.
    - JavaScript strings are [string]s read as UTF-8 byte sequences.
    - A JavaScript value that may be [undefined]/[null] is either a
      [JSValue] (documents) or an [option] (configuration fields).
    - Collaborators of the plugin (the dataset client, the toast sink, the
      browser window, the random sources, the URL constructor) are the
      fields of a [Platform] record; every call to one of them is recorded
      in the event log of the state the handler runs in. *)

From Stdlib Require Import ZArith NArith Ascii String List Bool Lia.
From Stdlib Require Import Strings.Byte.
From stdpp Require Import gmap strings list.

Set Warnings "-register-all".

(** stdpp blocks the unfolding of string concatenation; the encoders below
    are proved by computing with it. *)
Local Arguments String.append !_ _ / : simpl nomatch.

Local Open Scope string_scope.
Local Open Scope list_scope.
Local Open Scope stdpp_scope.

(** ** JavaScript values *)

(** Documents are JSON data delivered by the dataset client.  Numbers only
    matter through their truthiness here, so an integer stands for them. *)
Inductive JSValue : Type :=
| JUndefined
| JNull
| JBool (b : bool)
| JNum (n : Z)
| JStr (s : string)
| JObj (props : list (string * JSValue))
| JArr (elems : list JSValue).

Module JS.

(** [typeof v] *)
Definition typeof (v : JSValue) : string :=
  match v with
  | JUndefined => "undefined"
  | JNull => "object"
  | JBool _ => "boolean"
  | JNum _ => "number"
  | JStr _ => "string"
  | JObj _ => "object"
  | JArr _ => "object"
  end.

(** Truthiness of a string: only the empty string is falsy. *)
Definition truthy_string (s : string) : bool :=
  match s with
  | EmptyString => false
  | String _ _ => true
  end.

(** [ToBoolean v] *)
Definition truthy (v : JSValue) : bool :=
  match v with
  | JUndefined | JNull => false
  | JBool b => b
  | JNum n => negb (n =? 0)%Z
  | JStr s => truthy_string s
  | JObj _ | JArr _ => true
  end.

(** Truthiness of an optional string ([undefined] is falsy). *)
Definition truthy_opt (o : option string) : bool :=
  match o with
  | Some s => truthy_string s
  | None => false
  end.

(** [a || b] on values. *)
Definition or (a b : JSValue) : JSValue := if truthy a then a else b.

(** [a || b] on optional strings. *)
Definition or_opt (a b : option string) : option string :=
  if truthy_opt a then a else b.

Definition is_digit (c : ascii) : bool :=
  let n := nat_of_ascii c in (48 <=? n)%nat && (n <=? 57)%nat.

Fixpoint digits_value (acc : nat) (s : string) : option nat :=
  match s with
  | EmptyString => Some acc
  | String c s' =>
      if is_digit c
      then digits_value (10 * acc + (nat_of_ascii c - 48)) s'
      else None
  end.

(** A property name is an array index when it is the canonical decimal
    spelling of a number: digits only, no leading zero except "0". *)
Definition array_index (s : string) : option nat :=
  match s with
  | EmptyString => None
  | String "0" EmptyString => Some 0%nat
  | String "0" _ => None
  | _ => digits_value 0 s
  end.

Fixpoint own_lookup (k : string) (props : list (string * JSValue))
  : option JSValue :=
  match props with
  | [] => None
  | (k', v) :: rest => if String.eqb k k' then Some v else own_lookup k rest
  end.

(** The properties of a JSON value reachable by a string key: the own
    keys of an object; the indices and [length] of an array.  Members
    inherited from [Object.prototype] and [Array.prototype] are functions
    (or prototype objects holding only functions): no string is reachable
    through them, and they are left out. *)
Definition property (v : JSValue) (k : string) : option JSValue :=
  match v with
  | JObj props => own_lookup k props
  | JArr elems =>
      if String.eqb k "length" then Some (JNum (Z.of_nat (length elems)))
      else match array_index k with
           | Some i => elems !! i
           | None => None
           end
  | _ => None
  end.

(** [k in v], for [v] an object or an array. *)
Definition has_property (k : string) (v : JSValue) : bool :=
  match property v k with Some _ => true | None => false end.

(** [v[k]] *)
Definition get (v : JSValue) (k : string) : JSValue :=
  match property v k with Some w => w | None => JUndefined end.

(** [s.split(sep)] for a one-character separator. *)
Fixpoint split (sep : ascii) (s : string) : list string :=
  match s with
  | EmptyString => [EmptyString]
  | String c s' =>
      if Ascii.eqb c sep then EmptyString :: split sep s'
      else match split sep s' with
           | x :: xs => String c x :: xs
           | [] => [String c EmptyString]
           end
  end.

End JS.

(** ** The slug resolver ([getSlugValue], index.ts 61-77) *)

(** The body of the [for (const part of parts)] loop: [None] is the
    [return null] inside the loop, [Some value] the value the loop ends
    with. *)
Fixpoint getSlugValue_loop (parts : list string) (value : JSValue)
  : option JSValue :=
  match parts with
  | [] => Some value
  | part :: rest =>
      if JS.truthy value
         && String.eqb (JS.typeof value) "object"
         && JS.has_property part value
      then getSlugValue_loop rest (JS.get value part)
      else None
  end.

(** [string | null] is [option string]. *)
Definition getSlugValue (doc : JSValue) (path : string) : option string :=
  if negb (JS.truthy doc) || negb (JS.truthy_string path) then None
  else
    let parts := JS.split "." path in
    match getSlugValue_loop parts doc with
    | None => None
    | Some value =>
        if String.eqb (JS.typeof value) "string"
        then match value with JStr s => Some s | _ => None end
        else None
    end.

(** *** The resolver as the specification words it *)

(** "a non-null object-like container" *)
Definition is_container (v : JSValue) : Prop :=
  match v with
  | JObj _ | JArr _ => True
  | _ => False
  end.

(** "walks the document object one segment at a time; at each step, if the
    current value is a non-null object-like container and contains the
    segment as a key, descend into it". *)
Inductive walks_to : JSValue -> list string -> JSValue -> Prop :=
| walk_done v : walks_to v [] v
| walk_step v part rest child w :
    is_container v ->
    JS.property v part = Some child ->
    walks_to child rest w ->
    walks_to v (part :: rest) w.

(** ** String encodings used by the secret generator *)

Module Encoding.

(** One digit of [Number.prototype.toString(16)]: 0-9 then a-f. *)
Definition hex_digit (d : N) : ascii :=
  if (d <? 10)%N then ascii_of_N (48 + d) else ascii_of_N (87 + d).

Fixpoint toString16_digits (fuel : nat) (n : N) (acc : string) : string :=
  match fuel with
  | O => acc
  | S fuel' =>
      let acc' := String (hex_digit (n mod 16)) acc in
      if (n / 16 =? 0)%N then acc' else toString16_digits fuel' (n / 16) acc'
  end.

(** [n.toString(16)] for a non-negative integer. *)
Definition toString16 (n : N) : string :=
  toString16_digits (S (N.to_nat (N.log2 n))) n "".

Fixpoint repeat_string (n : nat) (s : string) : string :=
  match n with
  | O => ""
  | S n' => s +:+ repeat_string n' s
  end.

(** [s.padStart(targetLength, fill)] *)
Definition padStart (targetLength : nat) (fill : string) (s : string) : string :=
  let len := String.length s in
  if (targetLength <=? len)%nat || negb (JS.truthy_string fill) then s
  else
    let missing := (targetLength - len)%nat in
    substring 0 missing (repeat_string missing fill) +:+ s.

(** [s.substring(start, end)] for [start <= end]. *)
Definition js_substring (start stop : nat) (s : string) : string :=
  substring start (stop - start) s.

Definition base64_alphabet : string :=
  "ABCDEFGHIJKLMNOPQRSTUVWXYZabcdefghijklmnopqrstuvwxyz0123456789+/".

Definition base64_char (sextet : N) : ascii :=
  match String.get (N.to_nat sextet) base64_alphabet with
  | Some c => c
  | None => "="%char
  end.

(** Standard base64 with padding, three octets at a time. *)
Fixpoint base64_octets (l : list N) : string :=
  match l with
  | [] => ""
  | [a] =>
      let n := (a * 65536)%N in
      String (base64_char (n / 262144))
        (String (base64_char ((n / 4096) mod 64)) "==")
  | [a; b] =>
      let n := (a * 65536 + b * 256)%N in
      String (base64_char (n / 262144))
        (String (base64_char ((n / 4096) mod 64))
           (String (base64_char ((n / 64) mod 64)) "="))
  | a :: b :: c :: rest =>
      let n := (a * 65536 + b * 256 + c)%N in
      String (base64_char (n / 262144))
        (String (base64_char ((n / 4096) mod 64))
           (String (base64_char ((n / 64) mod 64))
              (String (base64_char (n mod 64)) (base64_octets rest))))
  end.

(** [btoa(s)]: every character of a [string] is a code below 256, so the
    call cannot raise [InvalidCharacterError]. *)
Definition btoa (s : string) : string :=
  base64_octets (map N_of_ascii (list_ascii_of_string s)).

(** [s.replace(/c/g, d)] for single characters [c] and [d]. *)
Fixpoint replace_all (c d : ascii) (s : string) : string :=
  match s with
  | EmptyString => EmptyString
  | String x s' => String (if Ascii.eqb x c then d else x) (replace_all c d s')
  end.

(** [s.replace(/[c]+$/, '')]: drops the run of [c] the string ends with. *)
Fixpoint strip_trailing (c : ascii) (s : string) : string :=
  match s with
  | EmptyString => EmptyString
  | String x s' =>
      match strip_trailing c s' with
      | EmptyString => if Ascii.eqb x c then EmptyString else String x EmptyString
      | r => String x r
      end
  end.

Definition is_alnum (c : ascii) : bool :=
  let n := nat_of_ascii c in
  ((48 <=? n) && (n <=? 57) || (65 <=? n) && (n <=? 90)
   || (97 <=? n) && (n <=? 122))%nat.

(** "alphanumerics plus '-' and '_'" *)
Definition url_safe_char (c : ascii) : bool :=
  is_alnum c || Ascii.eqb c "-" || Ascii.eqb c "_".

Fixpoint string_forallb (p : ascii -> bool) (s : string) : bool :=
  match s with
  | EmptyString => true
  | String c s' => p c && string_forallb p s'
  end.

Definition url_safe (s : string) : bool := string_forallb url_safe_char s.

End Encoding.

(** ** URLs *)

(** A parsed URL as the handler uses it: everything up to and including
    the path in serialized form, the query as the list [url.searchParams]
    exposes, and the fragment. *)
Record URL : Type := {
  origin_and_path : string;
  searchParams : list (string * string);
  hash : option string
}.

Module URLSearchParams.

Fixpoint remove_all (name : string) (l : list (string * string))
  : list (string * string) :=
  match l with
  | [] => []
  | (k, v) :: rest =>
      if String.eqb k name then remove_all name rest
      else (k, v) :: remove_all name rest
  end.

Fixpoint replace_first (name value : string) (l : list (string * string))
  : list (string * string) :=
  match l with
  | [] => []
  | (k, v) :: rest =>
      if String.eqb k name then (k, value) :: remove_all name rest
      else (k, v) :: replace_first name value rest
  end.

Definition has (name : string) (l : list (string * string)) : bool :=
  existsb (fun kv => String.eqb (fst kv) name) l.

(** [params.set(name, value)]: the first pair named [name] takes the
    value and the others are removed; without one, a pair is appended. *)
Definition set (name value : string) (l : list (string * string))
  : list (string * string) :=
  if has name l then replace_first name value l else l ++ [(name, value)].

(** [params.get(name)] *)
Fixpoint get (name : string) (l : list (string * string)) : option string :=
  match l with
  | [] => None
  | (k, v) :: rest => if String.eqb k name then Some v else get name rest
  end.


Definition upper_hex_digit (d : N) : ascii :=
  if (d <? 10)%N then ascii_of_N (48 + d) else ascii_of_N (55 + d).

(** application/x-www-form-urlencoded byte serializer. *)
Definition encode_byte (c : ascii) : string :=
  if Encoding.is_alnum c || Ascii.eqb c "*" || Ascii.eqb c "-"
     || Ascii.eqb c "." || Ascii.eqb c "_"
  then String c EmptyString
  else if Ascii.eqb c " " then "+"
  else
    let n := N_of_ascii c in
    String "%" (String (upper_hex_digit (n / 16))
                  (String (upper_hex_digit (n mod 16)) EmptyString)).

Fixpoint encode (s : string) : string :=
  match s with
  | EmptyString => EmptyString
  | String c s' => encode_byte c +:+ encode s'
  end.

Fixpoint serialize (l : list (string * string)) : string :=
  match l with
  | [] => ""
  | [(k, v)] => encode k +:+ "=" +:+ encode v
  | (k, v) :: rest => encode k +:+ "=" +:+ encode v +:+ "&" +:+ serialize rest
  end.

End URLSearchParams.

(** [url.searchParams.set(name, value)] *)
Definition URL_searchParams_set (name value : string) (u : URL) : URL :=
  {| origin_and_path := origin_and_path u;
     searchParams := URLSearchParams.set name value (searchParams u);
     hash := hash u |}.

(** [url.toString()] of a URL whose query was written through
    [searchParams] (an empty list leaves no query). *)
Definition URL_toString (u : URL) : string :=
  origin_and_path u
  +:+ match searchParams u with
      | [] => ""
      | l => "?" +:+ URLSearchParams.serialize l
      end
  +:+ match hash u with
      | Some f => "#" +:+ f
      | None => ""
      end.

(** ** Thrown values and results *)

(** What a [catch] clause receives: an [Error] with its message, or some
    other thrown value. *)
Inductive Exn : Type :=
| JSError (message : string)
| JSThrown.

Inductive Outcome (A : Type) : Type :=
| Returned (a : A)
| Thrown (e : Exn).

Arguments Returned {A} a.
Arguments Thrown {A} e.

(** ** The dataset and the cleanup query *)

(** A record of the content dataset.  [_updatedAt] is the RFC 3339
    timestamp the server maintains, held as seconds since the epoch. *)
Record StoredDoc : Type := {
  _id : string;
  _type : string;
  _updatedAt : Z;
  fields : list (string * JSValue)
}.

Module GROQ.

(** The expressions the plugin's query uses. *)
Inductive expr : Type :=
| Attr (name : string)
| Str (s : string)
| Num (n : Z)
| Now
| DateTime (e : expr)
| Minus (a b : expr)
| Eq (a b : expr)
| Le (a b : expr)
| And (a b : expr).

Inductive value : Type :=
| VNull
| VBool (b : bool)
| VNum (n : Z)
| VStr (s : string)
| VTimestamp (t : Z)   (* a string holding an RFC 3339 instant *)
| VDateTime (t : Z).   (* the datetime that [dateTime()] makes of it *)

Definition attribute (d : StoredDoc) (name : string) : value :=
  if String.eqb name "_id" then VStr (_id d)
  else if String.eqb name "_type" then VStr (_type d)
  else if String.eqb name "_updatedAt" then VTimestamp (_updatedAt d)
  else match JS.own_lookup name (fields d) with
       | Some (JStr s) => VStr s
       | Some (JNum n) => VNum n
       | Some (JBool b) => VBool b
       | _ => VNull
       end.

Fixpoint eval (now : Z) (d : StoredDoc) (e : expr) : value :=
  match e with
  | Attr name => attribute d name
  | Str s => VStr s
  | Num n => VNum n
  | Now => VTimestamp now
  | DateTime a =>
      match eval now d a with
      | VTimestamp t => VDateTime t
      | _ => VNull
      end
  | Minus a b =>
      match eval now d a, eval now d b with
      | VNum x, VNum y => VNum (x - y)
      | VDateTime t, VNum secs => VDateTime (t - secs)
      | _, _ => VNull
      end
  | Eq a b =>
      match eval now d a, eval now d b with
      | VStr x, VStr y => VBool (String.eqb x y)
      | VNum x, VNum y => VBool (x =? y)%Z
      | VBool x, VBool y => VBool (Bool.eqb x y)
      | VDateTime x, VDateTime y => VBool (x =? y)%Z
      | VTimestamp x, VTimestamp y => VBool (x =? y)%Z
      | _, _ => VBool false
      end
  | Le a b =>
      match eval now d a, eval now d b with
      | VNum x, VNum y => VBool (x <=? y)%Z
      | VDateTime x, VDateTime y => VBool (x <=? y)%Z
      | _, _ => VNull
      end
  | And a b =>
      match eval now d a, eval now d b with
      | VBool false, _ => VBool false
      | _, VBool false => VBool false
      | VBool true, VBool true => VBool true
      | _, _ => VNull
      end
  end.

(** [*[filter]] selects the records on which the filter is [true]. *)
Definition selects (now : Z) (filter : expr) (d : StoredDoc) : bool :=
  match eval now d filter with
  | VBool true => true
  | _ => false
  end.

End GROQ.

(** [*[_type == "sanity.previewUrlSecret" &&
       dateTime(_updatedAt) <= dateTime(now()) - 3600]] *)
Definition expired_secrets_query : GROQ.expr :=
  GROQ.And
    (GROQ.Eq (GROQ.Attr "_type") (GROQ.Str "sanity.previewUrlSecret"))
    (GROQ.Le (GROQ.DateTime (GROQ.Attr "_updatedAt"))
             (GROQ.Minus (GROQ.DateTime GROQ.Now) (GROQ.Num 3600))).

(** The document the handler writes (index.ts 184-190). *)
Record SecretDoc : Type := {
  secretDoc_id : string;
  secretDoc_type : string;
  secret : string;
  source : string;
  studioUrl : string
}.

(** ** Configuration *)

(** [urlPrefix?: string | ((doc: SanityDocument) => string)] *)
Inductive UrlPrefix : Type :=
| PrefixString (s : string)
| PrefixFunction (f : JSValue -> string).

Record PreviewTypeConfig : Type := {
  type : string;
  urlPrefix : option UrlPrefix;
  slugField : option string
}.

Record EasyPreviewConfig : Type := {
  previewUrl : option string;
  draftRoute : option string;
  config_slugField : option string;
  types : list PreviewTypeConfig
}.

(** The props a document action receives; [draft] and [published] are
    [SanityDocument | null]. *)
Record ActionProps : Type := {
  props_id : string;
  props_type : string;
  draft : JSValue;
  published : JSValue
}.

(** ** The platform *)

Record Platform : Type := {
  (** [crypto.getRandomValues]: the byte it writes at each index, or
      [None] where there is no [crypto]. *)
  crypto_getRandomValues : option (nat -> byte);
  (** [Math.random().toString(36)] of the n-th call. *)
  Math_random_toString36 : nat -> string;
  (** [uuid()] *)
  uuid : string;
  (** [window.location.origin], or [None] where there is no [window]. *)
  window_location_origin : option string;
  (** [process.env.SANITY_STUDIO_PREVIEW_URL] *)
  env_SANITY_STUDIO_PREVIEW_URL : option string;
  (** [new URL(url, base)]: the parsed URL or the [TypeError] it throws. *)
  URL_new : string -> option string -> Outcome URL;
  (** How the dataset settles the transaction commit and the delete:
      [None] fulfils, [Some e] rejects with [e]. *)
  commit_rejection : option Exn;
  delete_rejection : option Exn;
  (** The dataset's clock, in seconds. *)
  server_now : Z
}.

(** ** Effects: the event log, the dataset and the pending promises *)

Inductive Event : Type :=
| EvToast (status title description : string)   (* toast.push *)
| EvCall (fn : string)                          (* a call of a function of the plugin *)
| EvCommit (doc : SecretDoc) (tag : string)     (* transaction().createOrReplace(doc).commit({tag}) *)
| EvDelete (query : GROQ.expr)                  (* client.delete({query}) *)
| EvNewURL (url : string) (base : option string)
| EvWindowOpen (url target : string)            (* window.open *)
| EvConsoleError (message : string) (e : Exn)
| EvConsoleWarn (message : string) (e : option Exn).

(** A promise nobody awaits, with what runs when it settles. *)
Inductive Task : Type :=
| CleanupAwaitingDelete (query : GROQ.expr).

Record State : Type := {
  dataset : list StoredDoc;
  log : list Event;
  pending : list Task
}.

Definition M (A : Type) : Type := State -> Outcome A * State.

Definition ret {A} (a : A) : M A := fun st => (Returned a, st).

Definition bind {A B} (c : M A) (k : A -> M B) : M B :=
  fun st =>
    match c st with
    | (Returned a, st') => k a st'
    | (Thrown e, st') => (Thrown e, st')
    end.

Definition throw {A} (e : Exn) : M A := fun st => (Thrown e, st).

(** [try { body } catch (error) { handler }] *)
Definition try_catch {A} (body : M A) (handler : Exn -> M A) : M A :=
  fun st =>
    match body st with
    | (Returned a, st') => (Returned a, st')
    | (Thrown e, st') => handler e st'
    end.

Definition lift {A} (o : Outcome A) : M A := fun st => (o, st).

Notation "x <- c ;; k" := (bind c (fun x => k))
  (at level 100, c at next level, right associativity).
Notation "c ;; k" := (bind c (fun _ => k))
  (at level 100, right associativity).

Definition emit (ev : Event) : M unit :=
  fun st =>
    (Returned tt,
     {| dataset := dataset st; log := log st ++ [ev]; pending := pending st |}).

Definition enqueue (t : Task) : M unit :=
  fun st =>
    (Returned tt,
     {| dataset := dataset st; log := log st; pending := pending st ++ [t] |}).

Definition modify_dataset (f : list StoredDoc -> list StoredDoc) : M unit :=
  fun st =>
    (Returned tt,
     {| dataset := f (dataset st); log := log st; pending := pending st |}).

Definition toast_push (status title description : string) : M unit :=
  emit (EvToast status title description).

(** ** The dataset client *)

Section Client.

Variable P : Platform.

Definition stored (d : SecretDoc) : StoredDoc :=
  {| _id := secretDoc_id d;
     _type := secretDoc_type d;
     _updatedAt := server_now P;
     fields := [("secret", JStr (secret d));
                ("source", JStr (source d));
                ("studioUrl", JStr (studioUrl d))] |}.

Definition createOrReplace (d : StoredDoc) (ds : list StoredDoc)
  : list StoredDoc :=
  d :: List.filter (fun x => negb (String.eqb (_id x) (_id d))) ds.

(** [await client.transaction().createOrReplace(doc).commit({tag})] *)
Definition client_commit (doc : SecretDoc) (tag : string) : M unit :=
  emit (EvCommit doc tag) ;;
  match commit_rejection P with
  | Some e => throw e
  | None => modify_dataset (createOrReplace (stored doc))
  end.

(** [client.delete({query})], the call: the request leaves. *)
Definition client_delete_request (query : GROQ.expr) : M unit :=
  emit (EvDelete query).

(** [client.delete({query})], the settlement: the dataset drops the
    selected records, or the promise rejects. *)
Definition client_delete_settle (query : GROQ.expr) : M unit :=
  match delete_rejection P with
  | Some e => throw e
  | None =>
      modify_dataset
        (List.filter (fun d => negb (GROQ.selects (server_now P) query d)))
  end.

(** ** The cleanup sweep ([cleanupExpiredSecrets], index.ts 82-91) *)

(** The [catch] clause. *)
Definition cleanupExpiredSecrets_catch (error : Exn) : M unit :=
  emit (EvConsoleWarn "Failed to cleanup expired preview secrets:" (Some error)).

(** The function run until its promise settles. *)
Definition cleanupExpiredSecrets : M unit :=
  try_catch
    (client_delete_request expired_secrets_query ;;
     client_delete_settle expired_secrets_query)
    cleanupExpiredSecrets_catch.

(** The call that is not awaited: the function runs up to its [await],
    so the delete request leaves, and the rest waits for the settlement. *)
Definition cleanupExpiredSecrets_dispatch : M unit :=
  client_delete_request expired_secrets_query ;;
  enqueue (CleanupAwaitingDelete expired_secrets_query).

(** What runs when the delete settles: the rest of the [try], then the
    [.catch(() => {})] of the caller, which swallows a rejection. *)
Definition run_task (t : Task) : M unit :=
  match t with
  | CleanupAwaitingDelete query =>
      try_catch
        (try_catch (client_delete_settle query) cleanupExpiredSecrets_catch)
        (fun _ => ret tt)
  end.

Fixpoint run_tasks (ts : list Task) (st : State) : State :=
  match ts with
  | [] => st
  | t :: rest => run_tasks rest (snd (run_task t st))
  end.

(** The promises left pending settle once the caller has run. *)
Definition settle_pending (st : State) : State :=
  run_tasks (pending st)
    {| dataset := dataset st; log := log st; pending := [] |}.

End Client.

(** ** The secret generator ([generateUrlSecret], index.ts 40-56) *)

(** [new Uint8Array(16)] filled by [crypto.getRandomValues]. *)
Definition random_array (getRandomValues : nat -> byte) : list byte :=
  map getRandomValues (seq 0 16).

(** The [for] loop building [key]. *)
Definition hex_key (array : list byte) : string :=
  fold_left
    (fun key b =>
       key +:+ Encoding.padStart 2 "0" (Encoding.toString16 (Byte.to_N b)))
    array "".

(** [btoa(key).replace(/\+/g, '-').replace(/\//g, '_').replace(/[=]+$/, '')] *)
Definition base64url (key : string) : string :=
  Encoding.strip_trailing "="
    (Encoding.replace_all "/" "_"
       (Encoding.replace_all "+" "-" (Encoding.btoa key))).

Definition generateUrlSecret (P : Platform) : string :=
  match crypto_getRandomValues P with
  | Some getRandomValues =>
      let array := random_array getRandomValues in
      let key := hex_key array in
      base64url key
  | None =>
      Encoding.js_substring 2 15 (Math_random_toString36 P 0)
      +:+ Encoding.js_substring 2 15 (Math_random_toString36 P 1)
  end.

(** ** The plugin ([easyPreview], index.ts 120-270) *)

(** What the closures of one plugin instance capture. *)
Record Plugin : Type := {
  plugin_config : EasyPreviewConfig;
  plugin_previewUrl : option string;
  plugin_draftRoute : string;
  typeConfigMap : gmap string PreviewTypeConfig
}.

(** [types.forEach((typeConfig) => typeConfigMap.set(typeConfig.type, typeConfig))] *)
Definition build_typeConfigMap (l : list PreviewTypeConfig)
  : gmap string PreviewTypeConfig :=
  fold_left (fun m typeConfig => <[type typeConfig := typeConfig]> m) l ∅.

Definition plugin_of (P : Platform) (config : EasyPreviewConfig) : Plugin :=
  {| plugin_config := config;
     plugin_previewUrl :=
       match previewUrl config with
       | Some u => Some u
       | None => env_SANITY_STUDIO_PREVIEW_URL P
       end;
     plugin_draftRoute :=
       match draftRoute config with
       | Some r => r
       | None => "/api/draft"
       end;
     typeConfigMap := build_typeConfigMap (types config) |}.

Definition easyPreview (P : Platform) (config : EasyPreviewConfig) : M Plugin :=
  let plugin := plugin_of P config in
  (if JS.truthy_opt (plugin_previewUrl plugin) then ret tt
   else emit (EvConsoleWarn
                "sanity-plugin-easy-preview: No previewUrl configured. Set SANITY_STUDIO_PREVIEW_URL or pass previewUrl in config."
                None)) ;;
  ret plugin.

Definition dquote : string := String "034"%char EmptyString.

(** Lines 203-210: the prefix of the document's type. *)
Definition resolve_urlPrefix (typeConfig : PreviewTypeConfig) (document : JSValue)
  : string :=
  match urlPrefix typeConfig with
  | Some (PrefixFunction f) => f document
  | Some (PrefixString s) => if JS.truthy_string s then s else ""
  | None => ""
  end.

(** Line 217. *)
Definition preview_pathname (urlPrefix slug : string) : string :=
  if JS.truthy_string urlPrefix then urlPrefix +:+ "/" +:+ slug
  else "/" +:+ slug.

(** Lines 213-218: the URL the handler opens, or what [new URL] throws. *)
Definition preview_url (P : Platform) (draftRoute : string)
    (previewUrl : option string) (secret urlPrefix slug : string) : Outcome URL :=
  match URL_new P draftRoute previewUrl with
  | Thrown e => Thrown e
  | Returned url =>
      let url := URL_searchParams_set "sanity-preview-secret" secret url in
      let pathname := preview_pathname urlPrefix slug in
      Returned (URL_searchParams_set "sanity-preview-pathname" pathname url)
  end.

(** [error instanceof Error ? error.message : 'An unknown error occurred'] *)
Definition error_description (error : Exn) : string :=
  match error with
  | JSError message => message
  | JSThrown => "An unknown error occurred"
  end.

Section Handler.

Variable P : Platform.
Variable plugin : Plugin.
Variable props : ActionProps.

Definition window_open (url target : string) : M unit :=
  match window_location_origin P with
  | Some _ => emit (EvWindowOpen url target)
  | None => throw (JSError "window is not defined")
  end.

(** The body of the [try] (index.ts 146-227). *)
Definition handlePreview_try : M unit :=
  match typeConfigMap plugin !! props_type props with
  | None =>
      toast_push "error" "Preview not configured"
        ("No preview configuration found for document type "
         +:+ dquote +:+ props_type props +:+ dquote)
  | Some typeConfig =>
      let document := JS.or (draft props) (published props) in
      if negb (JS.truthy document) then
        toast_push "error" "No document found"
          "Cannot preview: document not found"
      else
        let slugField :=
          match JS.or_opt
                  (JS.or_opt (slugField typeConfig)
                     (config_slugField (plugin_config plugin)))
                  (Some "slug.current") with
          | Some f => f
          | None => "slug.current"
          end in
        slug <- (emit (EvCall "getSlugValue") ;;
                 ret (getSlugValue document slugField)) ;;
        match slug with
        | None | Some EmptyString =>
            toast_push "error" "Missing slug"
              ("Document missing required field: " +:+ slugField)
        | Some slug =>
            secret <- (emit (EvCall "generateUrlSecret") ;;
                       ret (generateUrlSecret P)) ;;
            let secretId := uuid P in
            let secretDoc :=
              {| secretDoc_id := "drafts." +:+ secretId;
                 secretDoc_type := "sanity.previewUrlSecret";
                 secret := secret;
                 source := props_id props;
                 studioUrl :=
                   match window_location_origin P with
                   | None => ""
                   | Some origin => origin
                   end |} in
            client_commit P secretDoc "sanity.preview-url-secret" ;;
            cleanupExpiredSecrets_dispatch ;;
            let urlPrefix := resolve_urlPrefix typeConfig document in
            emit (EvNewURL (plugin_draftRoute plugin) (plugin_previewUrl plugin)) ;;
            url <- lift (preview_url P (plugin_draftRoute plugin)
                           (plugin_previewUrl plugin) secret urlPrefix slug) ;;
            window_open (URL_toString url) "_blank" ;;
            toast_push "success" "Preview opened" "Opening preview in new tab..."
        end
  end.

(** The [catch] clause (index.ts 228-235). *)
Definition handlePreview_catch (error : Exn) : M unit :=
  emit (EvConsoleError "Preview failed:" error) ;;
  toast_push "error" "Preview failed" (error_description error).

Definition handlePreview : M unit :=
  try_catch handlePreview_try handlePreview_catch.

(** A whole preview request: the handler, then the settlement of what it
    left pending. *)
Definition preview_request (st : State) : Outcome unit * State :=
  let (r, st') := handlePreview st in
  (r, settle_pending P st').

(** What a document action component returns. *)
Record ActionDescription : Type := {
  label : string;
  icon : string;
  onHandle : M unit;
  disabled : bool
}.

(** [PreviewAction] (index.ts 139-250); [None] is [return null]. *)
Definition PreviewAction : option ActionDescription :=
  if negb (bool_decide (is_Some (typeConfigMap plugin !! props_type props)))
  then None
  else
    Some {| label := "Preview";
            icon := "EyeOpenIcon";
            onHandle := handlePreview;
            disabled :=
              negb (JS.truthy (draft props))
              && negb (JS.truthy (published props)) |}.

End Handler.

(** ** A reference URL constructor

    The theorems about the handler hold for whatever the platform's
    [new URL] answers.  The worked examples need one that computes; this
    one follows the URL Standard on the inputs the plugin documents (a base
    [http(s)://host[:port]] with an optional path, and a path-absolute
    route [/segments[?query][#fragment]] over letters, digits, [/], [-]
    and [_], where no percent-encoding, dot segment or host normalisation
    arises), and rejects every other input. *)

Module Reference.

Fixpoint strip_prefix (p s : string) : option string :=
  match p, s with
  | EmptyString, _ => Some s
  | String a p', String b s' => if Ascii.eqb a b then strip_prefix p' s' else None
  | String _ _, EmptyString => None
  end.

(** The longest prefix of characters satisfying [f], and the rest. *)
Fixpoint span (f : ascii -> bool) (s : string) : string * string :=
  match s with
  | EmptyString => (EmptyString, EmptyString)
  | String c s' =>
      if f c then let (a, b) := span f s' in (String c a, b)
      else (EmptyString, s)
  end.

Definition is_lower (c : ascii) : bool :=
  let n := nat_of_ascii c in (97 <=? n)%nat && (n <=? 122)%nat.

Definition is_path_char (c : ascii) : bool :=
  Encoding.is_alnum c || Ascii.eqb c "/" || Ascii.eqb c "-" || Ascii.eqb c "_".

Definition is_query_char (c : ascii) : bool :=
  Encoding.is_alnum c || Ascii.eqb c "-" || Ascii.eqb c "_"
  || Ascii.eqb c "=" || Ascii.eqb c "&".

Definition is_fragment_char (c : ascii) : bool :=
  Encoding.is_alnum c || Ascii.eqb c "-" || Ascii.eqb c "_".

(** A host made of dot-separated labels of lower-case letters. *)
Definition valid_host (h : string) : bool :=
  forallb
    (fun l => JS.truthy_string l && Encoding.string_forallb is_lower l)
    (JS.split "." h).

Definition default_port (scheme : string) : nat :=
  if String.eqb scheme "https" then 443 else 80.

(** The serialized origin of a base. *)
Definition parse_base (base : string) : option string :=
  match
    match strip_prefix "http://" base with
    | Some r => Some ("http", r)
    | None =>
        match strip_prefix "https://" base with
        | Some r => Some ("https", r)
        | None => None
        end
    end
  with
  | None => None
  | Some (scheme, r) =>
      let (host, r1) := span (fun c => is_lower c || Ascii.eqb c ".") r in
      if negb (valid_host host) then None
      else
        match
          match r1 with
          | String ":" r2 =>
              let (digits, r3) := span JS.is_digit r2 in
              match JS.array_index digits with
              | Some n =>
                  if (N.of_nat n <=? 65535)%N
                  then Some ((if (n =? default_port scheme)%nat then ""
                              else ":" +:+ digits), r3)
                  else None
              | None => None
              end
          | _ => Some ("", r1)
          end
        with
        | None => None
        | Some (port, rest) =>
            if Encoding.string_forallb is_path_char rest
               && match rest with
                  | EmptyString | String "/" _ => true
                  | _ => false
                  end
            then Some (scheme +:+ "://" +:+ host +:+ port)
            else None
        end
  end.

(** The first [c] of [s] splits it. *)
Fixpoint break_at (c : ascii) (s : string) : string * option string :=
  match s with
  | EmptyString => (EmptyString, None)
  | String x s' =>
      if Ascii.eqb x c then (EmptyString, Some s')
      else let (a, b) := break_at c s' in (String x a, b)
  end.

(** The application/x-www-form-urlencoded parser on a query holding no
    [%] and no [+]. *)
Definition parse_query (q : string) : list (string * string) :=
  flat_map
    (fun sequence =>
       if JS.truthy_string sequence then
         match break_at "=" sequence with
         | (name, Some value) => [(name, value)]
         | (name, None) => [(name, "")]
         end
       else [])
    (JS.split "&" q).

Definition URL_new (url : string) (base : option string) : Outcome URL :=
  let invalid := Thrown (JSError "Invalid URL") in
  match base with
  | None => invalid
  | Some b =>
      match parse_base b, url with
      | Some origin, String "/" r =>
          let (segments, r1) := span is_path_char r in
          match segments with
          | String "/" _ => invalid
          | _ =>
              let (query, r2) :=
                match r1 with
                | String "?" r' => span is_query_char r'
                | _ => (EmptyString, r1)
                end in
              match r2 with
              | EmptyString =>
                  Returned {| origin_and_path := origin +:+ "/" +:+ segments;
                              searchParams := parse_query query;
                              hash := None |}
              | String "#" f =>
                  if Encoding.string_forallb is_fragment_char f
                  then Returned {| origin_and_path := origin +:+ "/" +:+ segments;
                                   searchParams := parse_query query;
                                   hash := Some f |}
                  else invalid
              | _ => invalid
              end
          end
      | _, _ => invalid
      end
  end.

End Reference.

(** A browser with a secure random source whose dataset accepts every
    write, for the worked examples. *)
Definition browser (origin : string) (random : nat -> byte) : Platform :=
  {| crypto_getRandomValues := Some random;
     Math_random_toString36 := fun _ => "0.";
     uuid := "00000000-0000-4000-8000-000000000000";
     window_location_origin := Some origin;
     env_SANITY_STUDIO_PREVIEW_URL := None;
     URL_new := Reference.URL_new;
     commit_rejection := None;
     delete_rejection := None;
     server_now := 1700000000 |}.

Definition empty_state : State :=
  {| dataset := []; log := []; pending := [] |}.

(** ** The specification's wording of the slug resolver, completed *)

(** "document is absent" *)
Definition absent (doc : JSValue) : Prop := doc = JUndefined \/ doc = JNull.

(** The walk stops at the first segment whose current value is not a
    container holding that segment. *)
Inductive stuck : JSValue -> list string -> Prop :=
| stuck_here v part rest :
    ~ (is_container v /\ is_Some (JS.property v part)) ->
    stuck v (part :: rest)
| stuck_below v part rest child :
    is_container v ->
    JS.property v part = Some child ->
    stuck child rest ->
    stuck v (part :: rest).

Inductive resolveSlug_spec (doc : JSValue) (path : string)
  : option string -> Prop :=
| resolve_absent :
    absent doc -> resolveSlug_spec doc path None
| resolve_empty_path :
    path = "" -> resolveSlug_spec doc path None
| resolve_stuck :
    ~ absent doc -> path <> "" ->
    stuck doc (JS.split "." path) ->
    resolveSlug_spec doc path None
| resolve_string s :
    ~ absent doc -> path <> "" ->
    walks_to doc (JS.split "." path) (JStr s) ->
    resolveSlug_spec doc path (Some s)
| resolve_not_string w :
    ~ absent doc -> path <> "" ->
    walks_to doc (JS.split "." path) w ->
    (forall s, w <> JStr s) ->
    resolveSlug_spec doc path None.

(** ** Hexadecimal encoding, as a specification *)

(** Two lower-case hexadecimal digits per byte, high nibble first. *)
Definition hex_encode (bytes : list byte) : string :=
  fold_right
    (fun b rest =>
       let n := Byte.to_N b in
       String (Encoding.hex_digit (n / 16))
         (String (Encoding.hex_digit (n mod 16)) rest))
    "" bytes.

(** A character of the standard base64 alphabet. *)
Definition base64_alphabet_char (c : ascii) : bool :=
  Encoding.is_alnum c || Ascii.eqb c "+" || Ascii.eqb c "/".

(** What the two character replacements of [base64url] make of one
    character. *)
Definition url_translate (c : ascii) : ascii :=
  let c1 := if Ascii.eqb c "+" then "-"%char else c in
  if Ascii.eqb c1 "/" then "_"%char else c1.

(** The three replacements of [base64url], on the octets. *)
Definition finish (s : string) : string :=
  Encoding.strip_trailing "="
    (Encoding.replace_all "/" "_" (Encoding.replace_all "+" "-" s)).

(** ** Vocabulary for the handler's runs *)

(** A request starts with an empty log and nothing pending. *)
Definition initial (ds : list StoredDoc) : State :=
  {| dataset := ds; log := []; pending := [] |}.

(** The same platform with another settlement of the delete. *)
Definition with_delete_rejection (P : Platform) (r : option Exn) : Platform :=
  {| crypto_getRandomValues := crypto_getRandomValues P;
     Math_random_toString36 := Math_random_toString36 P;
     uuid := uuid P;
     window_location_origin := window_location_origin P;
     env_SANITY_STUDIO_PREVIEW_URL := env_SANITY_STUDIO_PREVIEW_URL P;
     URL_new := URL_new P;
     commit_rejection := commit_rejection P;
     delete_rejection := r;
     server_now := server_now P |}.

(** The events by which the preview URL comes to exist and is used. *)
Definition is_url_event (ev : Event) : Prop :=
  match ev with
  | EvNewURL _ _ | EvWindowOpen _ _ => True
  | _ => False
  end.

Definition is_delete (ev : Event) : Prop :=
  match ev with
  | EvDelete _ => True
  | _ => False
  end.

Definition is_toast (ev : Event) : Prop :=
  match ev with
  | EvToast _ _ _ => True
  | _ => False
  end.

Definition success_toast : Event :=
  EvToast "success" "Preview opened" "Opening preview in new tab...".

(** The secret-record type discriminator. *)
Definition secret_record_type : string := "sanity.previewUrlSecret".

(** The age of a record, in seconds, on the dataset's clock. *)
Definition age (P : Platform) (d : StoredDoc) : Z := server_now P - _updatedAt d.



(** ** Worked example: the documented configuration *)

Definition example_config : EasyPreviewConfig :=
  {| previewUrl := Some "http://localhost:3000";
     draftRoute := None;
     config_slugField := None;
     types := [ {| type := "page"; urlPrefix := Some (PrefixString "");
                   slugField := None |};
                {| type := "blogPost"; urlPrefix := Some (PrefixString "/blog");
                   slugField := None |} ] |}.

Definition example_platform : Platform :=
  browser "http://localhost:3333" (fun _ => x00).

Definition example_props : ActionProps :=
  {| props_id := "post-1";
     props_type := "blogPost";
     draft := JObj [("slug", JObj [("current", JStr "hello")])];
     published := JNull |}.

(** The example platform with a dataset that rejects the commit. *)
Definition failing_platform : Platform :=
  {| crypto_getRandomValues := crypto_getRandomValues example_platform;
     Math_random_toString36 := Math_random_toString36 example_platform;
     uuid := uuid example_platform;
     window_location_origin := window_location_origin example_platform;
     env_SANITY_STUDIO_PREVIEW_URL := None;
     URL_new := URL_new example_platform;
     commit_rejection := Some (JSError "Insufficient permissions");
     delete_rejection := None;
     server_now := server_now example_platform |}.

(** The record the example request writes. *)
Definition example_secretDoc : SecretDoc :=
  {| secretDoc_id := "drafts.00000000-0000-4000-8000-000000000000";
     secretDoc_type := "sanity.previewUrlSecret";
     secret := "MDAwMDAwMDAwMDAwMDAwMDAwMDAwMDAwMDAwMDAwMDA";
     source := "post-1";
     studioUrl := "http://localhost:3333" |}.

(** Three secret records, 3601, 3600 and 3599 seconds old on the example
    platform's clock, and a page of the same age as the oldest. *)
Definition secret_record (id : string) (updated : Z) : StoredDoc :=
  {| _id := id; _type := secret_record_type; _updatedAt := updated;
     fields := [("secret", JStr "token")] |}.

Definition example_dataset : list StoredDoc :=
  [ secret_record "drafts.a" (1700000000 - 3601);
    secret_record "drafts.b" (1700000000 - 3600);
    secret_record "drafts.c" (1700000000 - 3599);
    {| _id := "page-1"; _type := "page"; _updatedAt := 1700000000 - 3601;
       fields := [] |} ].

(** ** The secret's text, read back *)

(** One character of the secret: a sextet in the URL-safe alphabet. *)
Definition url_sextet (n : N) : ascii := url_translate (Encoding.base64_char n).

(** The sextet a character of the secret stands for. *)
Definition sextet_of (c : ascii) : option N :=
  List.find (fun n => Ascii.eqb (url_sextet n) c) (map N.of_nat (seq 0 64)).

(** Unpadded URL-safe base64 of octets, written directly. *)
Fixpoint base64url_octets (l : list N) : string :=
  match l with
  | [] => ""
  | [a] =>
      let n := (a * 65536)%N in
      String (url_sextet (n / 262144))
        (String (url_sextet ((n / 4096) mod 64)) "")
  | [a; b] =>
      let n := (a * 65536 + b * 256)%N in
      String (url_sextet (n / 262144))
        (String (url_sextet ((n / 4096) mod 64))
           (String (url_sextet ((n / 64) mod 64)) ""))
  | a :: b :: c :: rest =>
      let n := (a * 65536 + b * 256 + c)%N in
      String (url_sextet (n / 262144))
        (String (url_sextet ((n / 4096) mod 64))
           (String (url_sextet ((n / 64) mod 64))
              (String (url_sextet (n mod 64)) (base64url_octets rest))))
  end.

(** A character code. *)
Definition octet (n : N) : Prop := (n < 256)%N.

(** The value of a lower-case hexadecimal digit. *)
Definition hex_value (c : ascii) : N :=
  let n := N_of_ascii c in if (n <? 58)%N then (n - 48)%N else (n - 87)%N.

(** The byte two hexadecimal digits spell. *)
Definition byte_of_hex (hi lo : ascii) : option byte :=
  Byte.of_N (16 * hex_value hi + hex_value lo).

(** ** Vocabulary for paths and configuration *)

(** A key that holds no dot, so that it is one segment of a path. *)
Definition no_dot (k : string) : bool :=
  Encoding.string_forallb (fun c => negb (Ascii.eqb c ".")) k.

(** The path the handler resolves the slug at (index.ts 167). *)
Definition effective_slugField (typeConfig : PreviewTypeConfig) (plugin : Plugin)
  : string :=
  match JS.or_opt
          (JS.or_opt (slugField typeConfig)
             (config_slugField (plugin_config plugin)))
          (Some "slug.current") with
  | Some f => f
  | None => "slug.current"
  end.

(** The same props with other documents. *)
Definition with_documents (props : ActionProps) (d p : JSValue) : ActionProps :=
  {| props_id := props_id props; props_type := props_type props;
     draft := d; published := p |}.


(** ** The action list ([document.actions], index.ts 255-267) *)

(** [array.findIndex(f)]: the first index whose element satisfies [f],
    or -1. *)
Fixpoint Array_findIndex {A : Type} (f : A -> bool) (l : list A) : Z :=
  match l with
  | [] => -1
  | x :: rest =>
      if f x then 0
      else let i := Array_findIndex f rest in
           if (i <? 0)%Z then -1 else (i + 1)%Z
  end.

(** An index argument of [slice]: negative ones count from the end, and
    all are clamped to the array. *)
Definition relative_index (len : nat) (i : Z) : nat :=
  if (i <? 0)%Z then Z.to_nat (Z.max 0 (Z.of_nat len + i))
  else Nat.min (Z.to_nat i) len.

(** [array.slice(start, end)]; [None] is an omitted [end]. *)
Definition Array_slice {A : Type} (start : Z) (stop : option Z) (l : list A)
  : list A :=
  let len := length l in
  let first := relative_index len start in
  let final :=
    match stop with
    | Some e => relative_index len e
    | None => len
    end in
  take (final - first) (drop first l).

Section Actions.

(** The document action components of the host, with their [action]
    property, and the plugin's own component. *)
Variable Component : Type.
Variable action : Component -> option string.
Variable preview : Component.

(** [action.action === 'publish'] *)
Definition is_publish (a : Component) : bool :=
  match action a with
  | Some name => String.eqb name "publish"
  | None => false
  end.

Definition document_actions (prev : list Component) : list Component :=
  let publishIndex := Array_findIndex is_publish prev in
  if (0 <=? publishIndex)%Z then
    Array_slice 0 (Some (publishIndex + 1)%Z) prev
    ++ [preview]
    ++ Array_slice (publishIndex + 1)%Z None prev
  else prev ++ [preview].

End Actions.

(** ** More worked inputs *)

Definition page_config : PreviewTypeConfig :=
  {| type := "page"; urlPrefix := Some (PrefixString ""); slugField := None |}.

(** A page that exists nowhere, and one whose draft has no slug. *)
Definition absent_page : ActionProps :=
  {| props_id := "page-1"; props_type := "page";
     draft := JNull; published := JNull |}.

Definition untitled_page : ActionProps :=
  {| props_id := "page-2"; props_type := "page";
     draft := JObj [("title", JStr "Untitled")]; published := JNull |}.

(** The documented configuration without any preview URL. *)
Definition config_without_previewUrl : EasyPreviewConfig :=
  {| previewUrl := None; draftRoute := None; config_slugField := None;
     types := types example_config |}.

(** The example platform, an hour and more later. *)
Definition later_platform (seconds : Z) : Platform :=
  {| crypto_getRandomValues := crypto_getRandomValues example_platform;
     Math_random_toString36 := Math_random_toString36 example_platform;
     uuid := uuid example_platform;
     window_location_origin := window_location_origin example_platform;
     env_SANITY_STUDIO_PREVIEW_URL := None;
     URL_new := URL_new example_platform;
     commit_rejection := None;
     delete_rejection := None;
     server_now := server_now example_platform + seconds |}.

(** * Properties *)

(** ** The slug resolver *)

Lemma split_not_nil sep s : JS.split sep s <> [].
Proof.
  destruct s as [|c s]; simpl; [discriminate|].
  destruct (Ascii.eqb c sep); [discriminate|].
  destruct (JS.split sep s); discriminate.
Qed.

Lemma container_test v :
  JS.truthy v && String.eqb (JS.typeof v) "object" = true <-> is_container v.
Proof. destruct v; simpl; rewrite ?andb_false_r; intuition discriminate. Qed.

Lemma loop_condition v part :
  JS.truthy v && String.eqb (JS.typeof v) "object" && JS.has_property part v = true
  <-> is_container v /\ is_Some (JS.property v part).
Proof.
  rewrite andb_true_iff, container_test. unfold JS.has_property.
  destruct (JS.property v part) as [w|].
  - split; intros [H _]; split; eauto.
  - split; intros [H1 H2]; [discriminate | destruct H2; discriminate].
Qed.

Lemma loop_walks parts : forall v w,
  getSlugValue_loop parts v = Some w <-> walks_to v parts w.
Proof.
  induction parts as [|part rest IH]; intros v w; simpl.
  - split; [intros [= ->]; constructor | inversion 1; reflexivity].
  - destruct (JS.truthy v && String.eqb (JS.typeof v) "object"
              && JS.has_property part v) eqn:E.
    + apply loop_condition in E as [Hc [child Hp]].
      unfold JS.get. rewrite Hp, IH. split.
      * intros H. eapply walk_step; eauto.
      * inversion 1; subst. congruence.
    + split; [discriminate|]. inversion 1; subst.
      assert (is_container v /\ is_Some (JS.property v part)) as Hs by eauto.
      apply loop_condition in Hs. congruence.
Qed.

Lemma loop_stuck parts : forall v,
  getSlugValue_loop parts v = None <-> stuck v parts.
Proof.
  induction parts as [|part rest IH]; intros v; simpl.
  - split; [discriminate | inversion 1].
  - destruct (JS.truthy v && String.eqb (JS.typeof v) "object"
              && JS.has_property part v) eqn:E.
    + apply loop_condition in E as [Hc [child Hp]].
      unfold JS.get. rewrite Hp, IH. split.
      * intros H. eapply stuck_below; eauto.
      * inversion 1; subst; [exfalso; eauto | congruence].
    + split; [intros _ | reflexivity]. apply stuck_here.
      intros Hs. apply loop_condition in Hs. congruence.
Qed.

Lemma walks_to_functional v parts w1 w2 :
  walks_to v parts w1 -> walks_to v parts w2 -> w1 = w2.
Proof. rewrite <- !loop_walks. congruence. Qed.

Lemma truthy_string_false s : JS.truthy_string s = false <-> s = "".
Proof. destruct s; simpl; intuition discriminate. Qed.

Lemma absent_falsy doc : absent doc -> JS.truthy doc = false.
Proof. intros [-> | ->]; reflexivity. Qed.

Lemma falsy_stuck doc parts :
  JS.truthy doc = false -> parts <> [] -> stuck doc parts.
Proof.
  intros Hf Hp. destruct parts as [|part rest]; [congruence|].
  apply stuck_here. intros [Hc _]. destruct doc; simpl in *; try tauto; discriminate.
Qed.

Lemma getSlugValue_meets_spec doc path :
  resolveSlug_spec doc path (getSlugValue doc path).
Proof.
  unfold getSlugValue.
  destruct (JS.truthy doc) eqn:Ht; simpl.
  - assert (~ absent doc) as Hna
        by (intros Ha; apply absent_falsy in Ha; congruence).
    destruct (JS.truthy_string path) eqn:Hp; simpl.
    + assert (path <> "") as Hne by (intros ->; discriminate).
      destruct (getSlugValue_loop (JS.split "." path) doc) as [w|] eqn:El.
      * apply loop_walks in El.
        destruct w; simpl;
          try (eapply resolve_not_string; eauto; intros ?; discriminate).
        apply resolve_string; auto.
      * apply loop_stuck in El. apply resolve_stuck; auto.
    + apply resolve_empty_path. now apply truthy_string_false.
  - destruct (String.eqb_spec path "") as [-> | Hne];
      [now apply resolve_empty_path|].
    destruct doc; try discriminate;
      try (apply resolve_absent; unfold absent; tauto);
      (apply resolve_stuck;
       [ intros [? | ?]; discriminate | assumption
       | apply falsy_stuck; [assumption | apply split_not_nil] ]).
Qed.

Lemma resolveSlug_spec_functional doc path r1 r2 :
  resolveSlug_spec doc path r1 -> resolveSlug_spec doc path r2 -> r1 = r2.
Proof.
  intros H1 H2.
  destruct H1 as [Ha | He | Hna Hne Hs | s Hna Hne Hw | w Hna Hne Hw Hns];
    destruct H2 as [Ha' | He' | Hna' Hne' Hs' | s' Hna' Hne' Hw' | w' Hna' Hne' Hw' Hns'];
    try reflexivity; try tauto;
    try (apply loop_stuck in Hs); try (apply loop_stuck in Hs');
    try (apply loop_walks in Hw); try (apply loop_walks in Hw');
    congruence.
Qed.

(** C2. The resolver computes exactly what the specification describes:
    null for an absent document or an empty path; otherwise the walk along
    the dot-separated segments, null as soon as a segment is not held by a
    container, and at the end the final value when it is a string and null
    when it is anything else.  The five worked cases are as stated. *)
Theorem getSlugValue_correct :
  (forall doc path r,
      getSlugValue doc path = r <-> resolveSlug_spec doc path r)
  /\ getSlugValue (JObj [("slug", JObj [("current", JStr "hello")])])
       "slug.current" = Some "hello"
  /\ getSlugValue (JObj [("slug", JObj [("current", JNum 42)])])
       "slug.current" = None
  /\ getSlugValue (JObj []) "slug.current" = None
  /\ getSlugValue JUndefined "slug.current" = None
  /\ (forall doc, getSlugValue doc "" = None).
Proof.
  split; [| repeat split; try reflexivity].
  - intros doc path r. split.
    + intros <-. apply getSlugValue_meets_spec.
    + intros H. eapply resolveSlug_spec_functional; [|exact H].
      apply getSlugValue_meets_spec.
  - intros doc. unfold getSlugValue. simpl. now rewrite orb_true_r.
Qed.

(** ** The secret generator *)

Example btoa_rfc4648 :
  Encoding.btoa "" = "" /\ Encoding.btoa "f" = "Zg==" /\
  Encoding.btoa "fo" = "Zm8=" /\ Encoding.btoa "foo" = "Zm9v" /\
  Encoding.btoa "foob" = "Zm9vYg==" /\ Encoding.btoa "foobar" = "Zm9vYmFy".
Proof. repeat split; reflexivity. Qed.

Example base64url_example :
  base64url (hex_key [x00; xfb; xff; x3e]) = "MDBmYmZmM2U".
Proof. reflexivity. Qed.

Lemma append_assoc (a b c : string) : (a +:+ b) +:+ c = a +:+ (b +:+ c).
Proof. induction a; simpl; congruence. Qed.

Lemma append_empty_r (a : string) : a +:+ "" = a.
Proof. induction a; simpl; congruence. Qed.

Lemma byte_hex (b : byte) :
  Encoding.padStart 2 "0" (Encoding.toString16 (Byte.to_N b))
  = hex_encode [b].
Proof. destruct b; reflexivity. Qed.

Lemma hex_key_from (array : list byte) : forall key,
  fold_left
    (fun key b =>
       key +:+ Encoding.padStart 2 "0" (Encoding.toString16 (Byte.to_N b)))
    array key
  = key +:+ hex_encode array.
Proof.
  induction array as [|b array IH]; intros key; simpl.
  - now rewrite append_empty_r.
  - rewrite IH, byte_hex. simpl. now rewrite append_assoc.
Qed.

Lemma hex_key_hex_encode array : hex_key array = hex_encode array.
Proof. unfold hex_key. now rewrite hex_key_from. Qed.

Lemma base64_char_alphabet (n : N) :
  (n < 64)%N -> base64_alphabet_char (Encoding.base64_char n) = true.
Proof.
  intros Hn.
  assert (forallb (fun k => base64_alphabet_char (Encoding.base64_char (N.of_nat k)))
            (seq 0 64) = true) as Hall by (vm_compute; reflexivity).
  rewrite forallb_forall in Hall.
  rewrite <- (N2Nat.id n). apply Hall. apply in_seq. lia.
Qed.

Lemma url_translate_safe c :
  base64_alphabet_char c = true ->
  Encoding.url_safe_char (url_translate c) = true.
Proof.
  unfold base64_alphabet_char, url_translate, Encoding.url_safe_char.
  destruct (Ascii.eqb_spec c "+") as [-> | H1]; [reflexivity|].
  destruct (Ascii.eqb_spec c "/") as [-> | H2]; [reflexivity|].
  rewrite !orb_false_r. intros ->. reflexivity.
Qed.

Lemma strip_cons_safe x r :
  Encoding.url_safe_char x = true ->
  Encoding.url_safe (Encoding.strip_trailing "=" r) = true ->
  Encoding.url_safe (Encoding.strip_trailing "=" (String x r)) = true.
Proof.
  intros Hx Hr. simpl.
  destruct (Encoding.strip_trailing "=" r) as [|y r'].
  - destruct (Ascii.eqb x "="); [reflexivity|].
    unfold Encoding.url_safe. cbn [Encoding.string_forallb]. now rewrite Hx.
  - unfold Encoding.url_safe in *. cbn [Encoding.string_forallb] in *.
    now rewrite Hx.
Qed.

Lemma finish_cons c s :
  finish (String c s)
  = Encoding.strip_trailing "="
      (String (url_translate c)
         (Encoding.replace_all "/" "_" (Encoding.replace_all "+" "-" s))).
Proof. reflexivity. Qed.

Lemma finish_cons_safe c s :
  base64_alphabet_char c = true ->
  Encoding.url_safe (finish s) = true ->
  Encoding.url_safe (finish (String c s)) = true.
Proof.
  intros Hc Hs. rewrite finish_cons.
  apply strip_cons_safe; [now apply url_translate_safe | exact Hs].
Qed.

Lemma sextet_bound_1 a b c :
  (a < 256)%N -> (b < 256)%N -> (c < 256)%N ->
  ((a * 65536 + b * 256 + c) / 262144 < 64)%N.
Proof. intros. apply N.Div0.div_lt_upper_bound. lia. Qed.

Lemma sextet_bound_mod n : (n mod 64 < 64)%N.
Proof. apply N.mod_lt. discriminate. Qed.

Lemma base64_octets_safe (chars : list ascii) :
  Encoding.url_safe (finish (Encoding.base64_octets (map N_of_ascii chars))) = true
  /\ (forall a,
        Encoding.url_safe
          (finish (Encoding.base64_octets (map N_of_ascii (a :: chars)))) = true)
  /\ (forall a b,
        Encoding.url_safe
          (finish (Encoding.base64_octets (map N_of_ascii (a :: b :: chars)))) = true).
Proof.
  induction chars as [|c chars (IH0 & IH1 & IH2)].
  - split; [reflexivity|]. split.
    + intros a. cbn [map Encoding.base64_octets].
      pose proof (N_ascii_bounded a).
      apply finish_cons_safe;
        [apply base64_char_alphabet|apply finish_cons_safe;
          [apply base64_char_alphabet|reflexivity]].
      * replace (N_of_ascii a * 65536)%N
          with (N_of_ascii a * 65536 + 0 * 256 + 0)%N by lia.
        apply sextet_bound_1; lia.
      * apply sextet_bound_mod.
    + intros a b. cbn [map Encoding.base64_octets].
      pose proof (N_ascii_bounded a). pose proof (N_ascii_bounded b).
      repeat (apply finish_cons_safe;
              [apply base64_char_alphabet; try apply sextet_bound_mod|]);
        [|reflexivity].
      replace (N_of_ascii a * 65536 + N_of_ascii b * 256)%N
        with (N_of_ascii a * 65536 + N_of_ascii b * 256 + 0)%N by lia.
      apply sextet_bound_1; lia.
  - split; [apply IH1|]. split; [intros a; apply IH2|].
    intros a b. cbn [map Encoding.base64_octets].
    pose proof (N_ascii_bounded a). pose proof (N_ascii_bounded b).
    pose proof (N_ascii_bounded c).
    repeat (apply finish_cons_safe;
            [apply base64_char_alphabet; try apply sextet_bound_mod|]);
      [|exact IH0].
    apply sextet_bound_1; lia.
Qed.

Lemma base64url_safe (key : string) : Encoding.url_safe (base64url key) = true.
Proof.
  unfold base64url, Encoding.btoa.
  apply (base64_octets_safe (list_ascii_of_string key)).
Qed.

Lemma random_array_length rnd : length (random_array rnd) = 16%nat.
Proof. unfold random_array. now rewrite length_map, length_seq. Qed.


(** ** The cleanup sweep *)

Lemma selects_expired now d :
  GROQ.selects now expired_secrets_query d
  = String.eqb (_type d) secret_record_type && (_updatedAt d <=? now - 3600)%Z.
Proof.
  unfold GROQ.selects, expired_secrets_query, secret_record_type.
  cbn [GROQ.eval]. unfold GROQ.attribute.
  change (String.eqb "_type" "_id") with false.
  change (String.eqb "_type" "_type") with true.
  change (String.eqb "_updatedAt" "_id") with false.
  change (String.eqb "_updatedAt" "_type") with false.
  change (String.eqb "_updatedAt" "_updatedAt") with true.
  cbv iota.
  destruct (String.eqb (_type d) "sanity.previewUrlSecret");
    destruct (_updatedAt d <=? now - 3600)%Z; reflexivity.
Qed.

Lemma selects_expired_iff P d :
  GROQ.selects (server_now P) expired_secrets_query d = true
  <-> _type d = secret_record_type /\ (3600 <= age P d)%Z.
Proof.
  rewrite selects_expired, andb_true_iff, String.eqb_eq, Z.leb_le.
  unfold age. intuition lia.
Qed.

Lemma cleanup_dataset P st :
  delete_rejection P = None ->
  dataset (snd (cleanupExpiredSecrets P st))
  = List.filter
      (fun d => negb (GROQ.selects (server_now P) expired_secrets_query d))
      (dataset st).
Proof.
  intros H. unfold cleanupExpiredSecrets, try_catch, bind, client_delete_request,
    client_delete_settle, emit, modify_dataset. now rewrite H.
Qed.

(** The call that is not awaited, followed by the settlement of what it
    left pending, is the sweep run to completion. *)
Lemma dispatch_then_settle P st :
  pending st = [] ->
  settle_pending P (snd (cleanupExpiredSecrets_dispatch st))
  = snd (cleanupExpiredSecrets P st).
Proof.
  destruct st as [ds l p]. cbn [pending]. intros ->.
  unfold cleanupExpiredSecrets_dispatch, cleanupExpiredSecrets, settle_pending,
    run_tasks, run_task, client_delete_request, client_delete_settle,
    cleanupExpiredSecrets_catch.
  unfold try_catch, bind, ret, throw, enqueue, modify_dataset, emit.
  cbn [dataset log pending fst snd app].
  destruct (delete_rejection P); cbn [dataset log pending fst snd app];
    reflexivity.
Qed.

(** C4. When the delete goes through, the sweep removes exactly the
    records of the secret-record type whose last update is at least 3600
    seconds old and keeps every other record: one updated 3601 seconds ago
    goes, one updated exactly 3600 seconds ago goes, one updated 3599
    seconds ago stays. *)
Theorem cleanup_deletes_exactly_expired (P : Platform) (st : State) :
  delete_rejection P = None ->
  let st' := snd (cleanupExpiredSecrets P st) in
  (forall d,
      In d (dataset st')
      <-> In d (dataset st)
          /\ ~ (_type d = secret_record_type /\ (3600 <= age P d)%Z))
  /\ (forall d,
        In d (dataset st) -> _type d = secret_record_type ->
        (age P d = 3601%Z -> ~ In d (dataset st'))
        /\ (age P d = 3600%Z -> ~ In d (dataset st'))
        /\ (age P d = 3599%Z -> In d (dataset st'))).
Proof.
  intros Hok st'.
  assert (forall d,
      In d (dataset st')
      <-> In d (dataset st)
          /\ ~ (_type d = secret_record_type /\ (3600 <= age P d)%Z)) as Hiff.
  { intros d. unfold st'. rewrite cleanup_dataset by assumption.
    rewrite filter_In, negb_true_iff, <- not_true_iff_false, selects_expired_iff.
    reflexivity. }
  split; [exact Hiff|].
  intros d Hin Hty. repeat split; intros Hage; rewrite Hiff.
  - intros [_ Hn]. apply Hn. split; [assumption | lia].
  - intros [_ Hn]. apply Hn. split; [assumption | lia].
  - split; [assumption|]. intros [_ Hle]. lia.
Qed.

(** ** The handler *)

Lemma typeConfigMap_from (l : list PreviewTypeConfig) :
  forall (m : gmap string PreviewTypeConfig) (t : string),
  is_Some (fold_left (fun m typeConfig => <[type typeConfig := typeConfig]> m) l m !! t)
  <-> is_Some (m !! t) \/ exists tc, In tc l /\ type tc = t.
Proof.
  induction l as [|tc l IH]; intros m t; simpl.
  - split; [auto | intros [H | (tc & [] & _)]; exact H].
  - rewrite IH, lookup_insert_is_Some. split.
    + intros [[Heq | [_ Hm]] | (tc' & Hin & Ht)]; eauto 6.
    + intros [Hm | (tc' & [<- | Hin] & Ht)]; eauto.
      destruct (decide (type tc = t)); auto.
Qed.

Lemma typeConfigMap_configured (l : list PreviewTypeConfig) t :
  is_Some (build_typeConfigMap l !! t) <-> exists tc, In tc l /\ type tc = t.
Proof.
  unfold build_typeConfigMap. rewrite typeConfigMap_from, lookup_empty.
  split; [intros [[? [=]] | H]; exact H | auto].
Qed.

Ltac unfold_handler :=
  unfold preview_request, handlePreview, handlePreview_try, handlePreview_catch,
    client_commit, cleanupExpiredSecrets_dispatch, client_delete_request,
    window_open, toast_push, initial;
  unfold try_catch, bind, ret, lift, throw, enqueue, modify_dataset, emit;
  cbn [dataset log pending fst snd app].

(** C9. A preview request for a document type that has no entry in
    [types] pushes the "Preview not configured" toast and returns: the
    whole run logs no other event (no call of the slug resolver, no
    commit), leaves nothing pending and leaves the dataset as it was. *)
Theorem unconfigured_type_no_effects
    (P : Platform) (config : EasyPreviewConfig) (props : ActionProps)
    (ds : list StoredDoc) :
  (forall tc, In tc (types config) -> type tc <> props_type props) ->
  preview_request P (plugin_of P config) props (initial ds)
  = (Returned tt,
     {| dataset := ds;
        log := [EvToast "error" "Preview not configured"
                  ("No preview configuration found for document type "
                   +:+ dquote +:+ props_type props +:+ dquote)];
        pending := [] |}).
Proof.
  intros Hno.
  assert (typeConfigMap (plugin_of P config) !! props_type props = None) as Hm.
  { apply eq_None_not_Some. cbn [typeConfigMap plugin_of].
    rewrite typeConfigMap_configured. intros (tc & Hin & Ht).
    exact (Hno tc Hin Ht). }
  unfold_handler. rewrite Hm. reflexivity.
Qed.

Ltac handler_paths P plugin props :=
  unfold_handler;
  destruct (typeConfigMap plugin !! props_type props) as [typeConfig|] eqn:Hconfig;
    [ destruct (JS.truthy (JS.or (draft props) (published props))) eqn:Hdocument;
      cbn [negb];
      [ destruct (getSlugValue (JS.or (draft props) (published props)) _)
          as [[|c slug]|] eqn:Hslug;
        [ | destruct (commit_rejection P) as [rejection|] eqn:Hcommit;
            [ | unfold preview_url;
                match goal with
                | |- context [URL_new P ?a ?b] =>
                    destruct (URL_new P a b) as [url0|thrown] eqn:Hurl
                end;
                [ destruct (window_location_origin P) as [origin|] eqn:Hwindow | ] ]
          | ]
      | ]
    | ];
  cbn [dataset log pending fst snd app].

Ltac settle P :=
  unfold settle_pending, run_tasks, run_task, try_catch, client_delete_settle,
    cleanupExpiredSecrets_catch, modify_dataset, emit, ret, throw;
  cbn [dataset log pending fst snd app];
  try match goal with
      | |- context [delete_rejection P] =>
          destruct (delete_rejection P) as [delete_error|] eqn:Hdelete;
          cbn [dataset log pending fst snd app]
      end.

Ltac in_log :=
  repeat match goal with
         | H : In _ (_ :: _) |- _ => destruct H as [H | H]; [try discriminate H|]
         | H : In _ [] |- _ => destruct H
         end.

(** C3. When the commit of the secret record is rejected, the handler
    returns normally: the request constructs no URL, dispatches no cleanup
    (nothing is left pending), opens no URL, leaves the dataset as it was,
    and ends by logging the error and pushing the "Preview failed" error
    toast, which is the only toast of the request. *)
Theorem persist_failure_aborts
    (P : Platform) (plugin : Plugin) (props : ActionProps)
    (ds : list StoredDoc) (e : Exn) (doc : SecretDoc) (tag : string) :
  commit_rejection P = Some e ->
  In (EvCommit doc tag)
     (log (snd (preview_request P plugin props (initial ds)))) ->
  let run := preview_request P plugin props (initial ds) in
  fst run = Returned tt
  /\ dataset (snd run) = ds
  /\ pending (snd (handlePreview P plugin props (initial ds))) = []
  /\ (forall ev, In ev (log (snd run)) -> ~ is_url_event ev /\ ~ is_delete ev)
  /\ (forall ev, In ev (log (snd run)) -> is_toast ev ->
                 ev = EvToast "error" "Preview failed" (error_description e))
  /\ exists before,
       log (snd run)
       = before ++ [EvConsoleError "Preview failed:" e;
                    EvToast "error" "Preview failed" (error_description e)].
Proof.
  intros He. cbv zeta. handler_paths P plugin props; settle P.
  all: try congruence.
  all: intros Hin; in_log.
  assert (rejection = e) as -> by congruence.
  do 3 (split; [reflexivity|]).
  split; [|split].
  - intros ev Hev. in_log; subst ev; simpl; tauto.
  - intros ev Hev Ht. in_log; subst ev; simpl in Ht; tauto.
  - eexists [_; _; _]. reflexivity.
Qed.

Lemma persist_failure_aborts_witness :
  let run :=
    preview_request failing_platform (plugin_of failing_platform example_config)
      example_props (initial []) in
  commit_rejection failing_platform = Some (JSError "Insufficient permissions")
  /\ In (EvCommit example_secretDoc "sanity.preview-url-secret") (log (snd run))
  /\ fst run = Returned tt
  /\ dataset (snd run) = [].
Proof.
  assert (In (EvCommit example_secretDoc "sanity.preview-url-secret")
            (log (snd (preview_request failing_platform
                         (plugin_of failing_platform example_config)
                         example_props (initial [])))))
    as Hin by (vm_compute; tauto).
  pose proof (persist_failure_aborts failing_platform
                (plugin_of failing_platform example_config) example_props []
                (JSError "Insufficient permissions") example_secretDoc
                "sanity.preview-url-secret" eq_refl Hin) as (H1 & H2 & _).
  cbv zeta. split; [reflexivity|]. split; [exact Hin|]. split; assumption.
Defined.

(** ** Query parameters *)

Module URLSearchParamsFacts.
Import URLSearchParams.












End URLSearchParamsFacts.

(** ** The handler and the cleanup *)

Lemma handlePreview_ignores_delete_rejection
    (P : Platform) (r : option Exn) (plugin : Plugin) (props : ActionProps) :
  handlePreview (with_delete_rejection P r) plugin props
  = handlePreview P plugin props.
Proof. reflexivity. Qed.

(** C8. The cleanup sweep resolves whatever the dataset answers: a
    rejected delete is caught and only logged with [console.warn].  In a
    preview request the handler does the same and returns the same whether
    the delete will be rejected or not, and a rejection adds nothing to
    the run but that warning: no toast, no error, no change of result. *)
Theorem cleanup_failure_is_swallowed
    (P : Platform) (e : Exn) (st : State)
    (plugin : Plugin) (props : ActionProps) (ds : list StoredDoc) :
  let failing := with_delete_rejection P (Some e) in
  let working := with_delete_rejection P None in
  fst (cleanupExpiredSecrets P st) = Returned tt
  /\ (forall t, fst (run_task P t st) = Returned tt)
  /\ snd (cleanupExpiredSecrets failing st)
     = {| dataset := dataset st;
          log := log st
                 ++ [EvDelete expired_secrets_query;
                     EvConsoleWarn "Failed to cleanup expired preview secrets:"
                       (Some e)];
          pending := pending st |}
  /\ handlePreview failing plugin props (initial ds)
     = handlePreview working plugin props (initial ds)
  /\ fst (preview_request failing plugin props (initial ds))
     = fst (preview_request working plugin props (initial ds))
  /\ exists warnings,
       log (snd (preview_request failing plugin props (initial ds)))
       = log (snd (handlePreview working plugin props (initial ds))) ++ warnings
       /\ forall ev, In ev warnings ->
            ev = EvConsoleWarn "Failed to cleanup expired preview secrets:" (Some e).
Proof.
  cbv zeta. split; [|split; [|split; [|split; [|split]]]].
  - unfold cleanupExpiredSecrets, try_catch, bind, client_delete_request,
      client_delete_settle, cleanupExpiredSecrets_catch, throw, modify_dataset, emit.
    destruct (delete_rejection P); reflexivity.
  - intros [query]. unfold run_task, try_catch, client_delete_settle,
      cleanupExpiredSecrets_catch, throw, modify_dataset, emit, ret.
    destruct (delete_rejection P); reflexivity.
  - unfold cleanupExpiredSecrets, try_catch, bind, client_delete_request,
      client_delete_settle, cleanupExpiredSecrets_catch, throw, modify_dataset, emit.
    cbn [delete_rejection with_delete_rejection dataset log pending].
    now rewrite <- app_assoc.
  - reflexivity.
  - unfold preview_request.
    rewrite !handlePreview_ignores_delete_rejection.
    destruct (handlePreview P plugin props (initial ds)); reflexivity.
  - unfold preview_request.
    rewrite !handlePreview_ignores_delete_rejection.
    generalize (with_delete_rejection P (Some e)) (eq_refl : delete_rejection (with_delete_rejection P (Some e)) = Some e).
    intros F HF.
    handler_paths P plugin props;
      unfold settle_pending, run_tasks, run_task, try_catch, client_delete_settle,
        cleanupExpiredSecrets_catch, modify_dataset, emit, ret, throw;
      cbn [dataset log pending fst snd app]; rewrite ?HF;
      cbn [dataset log pending fst snd app].
    all: first
      [ exists []; split; [reflexivity | intros ev []]
      | eexists [_]; split;
        [reflexivity | intros ev [<- | []]; reflexivity] ].
Qed.






(** ** The preview URL *)




(** ** The document action *)

Lemma PreviewAction_offered
    (P : Platform) (config : EasyPreviewConfig) (props : ActionProps) :
  is_Some (PreviewAction P (plugin_of P config) props)
  <-> exists tc, In tc (types config) /\ type tc = props_type props.
Proof.
  unfold PreviewAction. cbn [typeConfigMap plugin_of].
  rewrite <- typeConfigMap_configured.
  case_bool_decide as Hc; cbn [negb].
  - split; [intros _; exact Hc | intros _; eauto].
  - split; [intros [? [=]] | intros H; contradiction].
Qed.

(** C5, as the code has it.  The action is offered exactly when the
    document's type has a configuration entry; an offered action is
    labelled "Preview" and is enabled exactly when a draft or a published
    document exists, so a configured type without any document gets the
    action in the disabled state. *)
Theorem PreviewAction_offered_iff_configured
    (P : Platform) (config : EasyPreviewConfig) (props : ActionProps) :
  let plugin := plugin_of P config in
  (is_Some (PreviewAction P plugin props)
   <-> exists tc, In tc (types config) /\ type tc = props_type props)
  /\ (forall action,
        PreviewAction P plugin props = Some action ->
        label action = "Preview"
        /\ onHandle action = handlePreview P plugin props
        /\ (disabled action = false
            <-> JS.truthy (draft props) = true
                \/ JS.truthy (published props) = true)).
Proof.
  cbv zeta. split; [apply PreviewAction_offered|].
  unfold PreviewAction. case_bool_decide as Hc; cbn [negb].
  - intros action [= <-]. cbn [label onHandle disabled].
    split; [reflexivity|]. split; [reflexivity|].
    destruct (JS.truthy (draft props)), (JS.truthy (published props));
      simpl; intuition discriminate.
  - intros action [=].
Qed.

Lemma PreviewAction_offered_iff_configured_witness :
  is_Some (PreviewAction example_platform
             (plugin_of example_platform example_config) example_props).
Proof.
  apply (proj1 (PreviewAction_offered_iff_configured example_platform
                  example_config example_props)).
  eexists. split; [right; left; reflexivity | reflexivity].
Defined.

(** C5, as stated, fails for a configured type whose document does not
    exist: the action is offered, in the disabled state. *)
Lemma PreviewAction_offered_without_document :
  let props :=
    {| props_id := "page-1"; props_type := "page";
       draft := JNull; published := JNull |} in
  let offered :=
    is_Some (PreviewAction example_platform
               (plugin_of example_platform example_config) props) in
  let configured :=
    exists tc, In tc (types example_config) /\ type tc = props_type props in
  let document_exists :=
    JS.truthy (draft props) = true \/ JS.truthy (published props) = true in
  ~ (offered <-> configured /\ document_exists)
  /\ disabled <$> PreviewAction example_platform
                    (plugin_of example_platform example_config) props
     = Some true.
Proof.
  cbv zeta. split.
  - intros [Hto _].
    assert (is_Some (PreviewAction example_platform
                       (plugin_of example_platform example_config)
                       {| props_id := "page-1"; props_type := "page";
                          draft := JNull; published := JNull |})) as Hoff.
    { apply PreviewAction_offered.
      eexists. split; [left; reflexivity | reflexivity]. }
    destruct (Hto Hoff) as [_ [H | H]]; discriminate H.
  - vm_compute. reflexivity.
Qed.

(** ** Worked runs *)

Lemma cleanup_deletes_exactly_expired_witness :
  delete_rejection example_platform = None
  /\ forall d,
       In d (dataset (snd (cleanupExpiredSecrets example_platform
                             (initial example_dataset))))
       <-> In d example_dataset
           /\ ~ (_type d = secret_record_type
                 /\ (3600 <= age example_platform d)%Z).
Proof.
  split; [reflexivity|].
  exact (proj1 (cleanup_deletes_exactly_expired example_platform
                  (initial example_dataset) eq_refl)).
Defined.

Example cleanup_example :
  map _id (dataset (snd (cleanupExpiredSecrets example_platform
                           (initial example_dataset))))
  = ["drafts.c"; "page-1"].
Proof. vm_compute. reflexivity. Qed.

Lemma unconfigured_type_no_effects_witness :
  let props :=
    {| props_id := "product-1"; props_type := "product";
       draft := JObj [("slug", JObj [("current", JStr "shoe")])];
       published := JNull |} in
  fst (preview_request example_platform
         (plugin_of example_platform example_config) props
         (initial example_dataset)) = Returned tt
  /\ dataset (snd (preview_request example_platform
                     (plugin_of example_platform example_config) props
                     (initial example_dataset))) = example_dataset.
Proof.
  cbv zeta.
  rewrite (unconfigured_type_no_effects example_platform example_config
             {| props_id := "product-1"; props_type := "product";
                draft := JObj [("slug", JObj [("current", JStr "shoe")])];
                published := JNull |} example_dataset).
  - split; reflexivity.
  - intros tc [<- | [<- | []]]; discriminate.
Defined.

Example getSlugValue_examples :
  getSlugValue (JObj [("meta", JObj [("slug", JStr "about")])]) "meta.slug"
  = Some "about"
  /\ getSlugValue (JObj [("slug", JStr "flat")]) "slug.current" = None
  /\ getSlugValue (JObj [("slug", JNull)]) "slug.current" = None
  /\ getSlugValue (JObj [("paths", JArr [JStr "a"; JStr "b"])]) "paths.1"
     = Some "b"
  /\ getSlugValue (JObj [("paths", JArr [JStr "a"; JStr "b"])]) "paths.length"
     = None
  /\ getSlugValue (JObj [("slug", JObj [("current", JStr "x")])]) "slug..current"
     = None
  /\ getSlugValue (JObj [("slug", JObj [("current", JStr "")])]) "slug.current"
     = Some "".
Proof. repeat split; reflexivity. Qed.

Example searchParams_set_examples :
  URLSearchParams.set "a" "9" [("a", "1"); ("b", "2"); ("a", "3")]
  = [("a", "9"); ("b", "2")]
  /\ URLSearchParams.set "c" "9" [("a", "1")] = [("a", "1"); ("c", "9")]
  /\ URLSearchParams.serialize [("q", "a b&c"); ("p", "/x_y-z.~")]
     = "q=a+b%26c&p=%2Fx_y-z.%7E".
Proof. repeat split; reflexivity. Qed.

(** A URL-safe value is written into the query as it is. *)
Lemma encode_url_safe (s : string) :
  Encoding.url_safe s = true -> URLSearchParams.encode s = s.
Proof.
  unfold Encoding.url_safe.
  induction s as [|c s IH]; cbn [Encoding.string_forallb URLSearchParams.encode];
    [reflexivity|].
  intros [Hc Hs]%andb_true_iff. rewrite (IH Hs).
  unfold URLSearchParams.encode_byte, Encoding.url_safe_char in *.
  destruct (Encoding.is_alnum c); [reflexivity|].
  destruct (Ascii.eqb c "*"); [reflexivity|].
  destruct (Ascii.eqb c "-"); [reflexivity|].
  destruct (Ascii.eqb c "."); [reflexivity|].
  destruct (Ascii.eqb c "_"); [reflexivity | discriminate].
Qed.

(** The secret of the secure path reaches the query unescaped. *)
Lemma generated_secret_unescaped (P : Platform) (getRandomValues : nat -> byte) :
  crypto_getRandomValues P = Some getRandomValues ->
  URLSearchParams.encode (generateUrlSecret P) = generateUrlSecret P.
Proof.
  intros H. apply encode_url_safe. unfold generateUrlSecret. rewrite H.
  apply base64url_safe.
Qed.

(** The run of the documented configuration, event by event. *)
Example example_run :
  preview_request example_platform (plugin_of example_platform example_config)
    example_props (initial [])
  = (Returned tt,
     {| dataset := [stored example_platform example_secretDoc];
        log :=
          [EvCall "getSlugValue"; EvCall "generateUrlSecret";
           EvCommit example_secretDoc "sanity.preview-url-secret";
           EvDelete expired_secrets_query;
           EvNewURL "/api/draft" (Some "http://localhost:3000");
           EvWindowOpen
             "http://localhost:3000/api/draft?sanity-preview-secret=MDAwMDAwMDAwMDAwMDAwMDAwMDAwMDAwMDAwMDAwMDA&sanity-preview-pathname=%2Fblog%2Fhello"
             "_blank";
           success_toast];
        pending := [] |}).
Proof. vm_compute. reflexivity. Qed.

(** The same request against a dataset that rejects the commit. *)
Example failing_run :
  preview_request failing_platform (plugin_of failing_platform example_config)
    example_props (initial example_dataset)
  = (Returned tt,
     {| dataset := example_dataset;
        log :=
          [EvCall "getSlugValue"; EvCall "generateUrlSecret";
           EvCommit example_secretDoc "sanity.preview-url-secret";
           EvConsoleError "Preview failed:" (JSError "Insufficient permissions");
           EvToast "error" "Preview failed" "Insufficient permissions"];
        pending := [] |}).
Proof. vm_compute. reflexivity. Qed.

(** ** The secret: its length and what it keeps of the random bytes *)

Lemma url_safe_char_not_pad c :
  Encoding.url_safe_char c = true -> Ascii.eqb c "=" = false.
Proof.
  destruct (Ascii.eqb_spec c "=") as [-> | H]; [discriminate | reflexivity].
Qed.

Lemma strip_cons_kept x r :
  Ascii.eqb x "=" = false ->
  Encoding.strip_trailing "=" (String x r)
  = String x (Encoding.strip_trailing "=" r).
Proof.
  intros Hx. simpl. destruct (Encoding.strip_trailing "=" r); [|reflexivity].
  now rewrite Hx.
Qed.

Lemma finish_sextet n s :
  (n < 64)%N ->
  finish (String (Encoding.base64_char n) s) = String (url_sextet n) (finish s).
Proof.
  intros Hn. rewrite finish_cons. apply strip_cons_kept.
  apply url_safe_char_not_pad, url_translate_safe, base64_char_alphabet, Hn.
Qed.

Ltac sextets :=
  repeat (rewrite finish_sextet;
          [f_equal | first [apply sextet_bound_mod | idtac]]).

Lemma finish_base64_octets (chars : list ascii) :
  (finish (Encoding.base64_octets (map N_of_ascii chars))
   = base64url_octets (map N_of_ascii chars))
  /\ (forall a,
        finish (Encoding.base64_octets (map N_of_ascii (a :: chars)))
        = base64url_octets (map N_of_ascii (a :: chars)))
  /\ (forall a b,
        finish (Encoding.base64_octets (map N_of_ascii (a :: b :: chars)))
        = base64url_octets (map N_of_ascii (a :: b :: chars))).
Proof.
  induction chars as [|c chars (IH0 & IH1 & IH2)].
  - split; [reflexivity|]. split.
    + intros a. cbn [map Encoding.base64_octets base64url_octets].
      pose proof (N_ascii_bounded a). sextets.
      replace (N_of_ascii a * 65536)%N
        with (N_of_ascii a * 65536 + 0 * 256 + 0)%N by lia.
      apply sextet_bound_1; lia.
    + intros a b. cbn [map Encoding.base64_octets base64url_octets].
      pose proof (N_ascii_bounded a). pose proof (N_ascii_bounded b). sextets.
      replace (N_of_ascii a * 65536 + N_of_ascii b * 256)%N
        with (N_of_ascii a * 65536 + N_of_ascii b * 256 + 0)%N by lia.
      apply sextet_bound_1; lia.
  - split; [apply IH1|]. split; [intros a; apply IH2|].
    intros a b. cbn [map Encoding.base64_octets base64url_octets].
    pose proof (N_ascii_bounded a). pose proof (N_ascii_bounded b).
    pose proof (N_ascii_bounded c). sextets; [exact IH0|].
    apply sextet_bound_1; lia.
Qed.

Lemma base64url_as_octets (key : string) :
  base64url key = base64url_octets (map N_of_ascii (list_ascii_of_string key)).
Proof.
  unfold base64url, Encoding.btoa.
  apply (finish_base64_octets (list_ascii_of_string key)).
Qed.

Lemma base64url_octets_length (l : list N) :
  (String.length (base64url_octets l) = (4 * length l + 2) / 3)%nat
  /\ (forall a,
        String.length (base64url_octets (a :: l))
        = (4 * length (a :: l) + 2) / 3)%nat
  /\ (forall a b,
        String.length (base64url_octets (a :: b :: l))
        = (4 * length (a :: b :: l) + 2) / 3)%nat.
Proof.
  induction l as [|c l (IH0 & IH1 & IH2)].
  - repeat split; reflexivity.
  - split; [apply IH1|]. split; [intros a; apply IH2|].
    intros a b. cbn [base64url_octets String.length length]. rewrite IH0.
    replace (4 * S (S (S (length l))) + 2)%nat
      with ((4 * length l + 2) + 4 * 3)%nat by lia.
    rewrite Nat.div_add by discriminate. lia.
Qed.

Lemma string_length_list (s : string) :
  length (list_ascii_of_string s) = String.length s.
Proof. induction s; simpl; congruence. Qed.

Lemma append_length (a b : string) :
  String.length (a +:+ b) = (String.length a + String.length b)%nat.
Proof. induction a; simpl; congruence. Qed.

Lemma hex_encode_length (array : list byte) :
  String.length (hex_encode array) = (2 * length array)%nat.
Proof. induction array as [|b array IH]; simpl; [reflexivity | lia]. Qed.

Lemma js_substring_length start stop s :
  (String.length (Encoding.js_substring start stop s) <= stop - start)%nat.
Proof.
  unfold Encoding.js_substring. generalize (stop - start)%nat as m.
  revert start. induction s as [|c s IH]; intros start m.
  - destruct start, m; simpl; lia.
  - destruct start as [|start].
    + destruct m as [|m]; simpl; [lia|]. specialize (IH 0%nat m). lia.
    + simpl. apply IH.
Qed.

(** X1. A secret of the secure path is always 43 characters long (the
    unpadded base64 of the 32 hexadecimal characters of 16 bytes); a secret
    of the fallback path is at most 26 characters long. *)
Theorem generateUrlSecret_length (P : Platform) :
  match crypto_getRandomValues P with
  | Some _ => String.length (generateUrlSecret P) = 43%nat
  | None => (String.length (generateUrlSecret P) <= 26)%nat
  end.
Proof.
  unfold generateUrlSecret.
  destruct (crypto_getRandomValues P) as [rnd|].
  - rewrite base64url_as_octets.
    rewrite (proj1 (base64url_octets_length _)).
    rewrite length_map, string_length_list, hex_key_hex_encode,
      hex_encode_length, random_array_length.
    reflexivity.
  - rewrite append_length.
    pose proof (js_substring_length 2 15 (Math_random_toString36 P 0)).
    pose proof (js_substring_length 2 15 (Math_random_toString36 P 1)).
    lia.
Qed.

Lemma sextet_of_url_sextet (n : N) :
  (n < 64)%N -> sextet_of (url_sextet n) = Some n.
Proof.
  intros Hn.
  assert (forallb
            (fun k =>
               match sextet_of (url_sextet (N.of_nat k)) with
               | Some m => N.eqb m (N.of_nat k)
               | None => false
               end) (seq 0 64) = true) as Hall by (vm_compute; reflexivity).
  rewrite forallb_forall in Hall.
  specialize (Hall (N.to_nat n)). rewrite N2Nat.id in Hall.
  destruct (sextet_of (url_sextet n)) as [m|].
  - f_equal. apply N.eqb_eq, Hall, in_seq. lia.
  - discriminate Hall. apply in_seq. lia.
Qed.

Lemma url_sextet_inj (n m : N) :
  (n < 64)%N -> (m < 64)%N -> url_sextet n = url_sextet m -> n = m.
Proof.
  intros Hn Hm H. apply sextet_of_url_sextet in Hn, Hm.
  rewrite H in Hn. congruence.
Qed.

Lemma group_bound a b c :
  (a < 256)%N -> (b < 256)%N -> (c < 256)%N ->
  ((a * 65536 + b * 256 + c) / 262144 < 64)%N.
Proof. apply sextet_bound_1. Qed.

Lemma sextets_recompose (n : N) :
  (n = 262144 * (n / 262144) + 4096 * ((n / 4096) mod 64)
       + 64 * ((n / 64) mod 64) + n mod 64)%N.
Proof.
  pose proof (N.div_mod n 64 ltac:(discriminate)) as H0.
  pose proof (N.div_mod (n / 64) 64 ltac:(discriminate)) as H1.
  pose proof (N.div_mod (n / 4096) 64 ltac:(discriminate)) as H2.
  rewrite N.Div0.div_div in H1. rewrite N.Div0.div_div in H2.
  change (64 * 64)%N with 4096%N in H1. change (4096 * 64)%N with 262144%N in H2.
  lia.
Qed.

Lemma group_inj a b c a' b' c' :
  (a < 256)%N -> (b < 256)%N -> (c < 256)%N ->
  (a' < 256)%N -> (b' < 256)%N -> (c' < 256)%N ->
  let n := (a * 65536 + b * 256 + c)%N in
  let n' := (a' * 65536 + b' * 256 + c')%N in
  (n / 262144 = n' / 262144)%N ->
  ((n / 4096) mod 64 = (n' / 4096) mod 64)%N ->
  ((n / 64) mod 64 = (n' / 64) mod 64)%N ->
  (n mod 64 = n' mod 64)%N ->
  a = a' /\ b = b' /\ c = c'.
Proof.
  intros Ha Hb Hc Ha' Hb' Hc' n n' H1 H2 H3 H4.
  assert (n = n') as Hn.
  { rewrite (sextets_recompose n), (sextets_recompose n'). congruence. }
  subst n n'. lia.
Qed.

Lemma low_sextets_zero a b :
  ((a * 65536 + b * 256) mod 64 = 0)%N
  /\ (((a * 65536) / 64) mod 64 = 0)%N
  /\ ((a * 65536) mod 64 = 0)%N.
Proof.
  replace (a * 65536 + b * 256)%N with ((a * 1024 + b * 4) * 64)%N by lia.
  replace (a * 65536)%N with ((a * 1024) * 64)%N by lia.
  rewrite !N.Div0.mod_mul, N.div_mul by discriminate.
  replace (a * 1024)%N with ((a * 16) * 64)%N by lia.
  now rewrite N.Div0.mod_mul.
Qed.

Ltac octets :=
  repeat match goal with
         | H : Forall octet (_ :: _) |- _ =>
             apply Forall_cons_iff in H; destruct H as [? H]
         end.

Lemma single_inj a a' :
  octet a -> octet a' ->
  base64url_octets [a] = base64url_octets [a'] -> a = a'.
Proof.
  unfold octet. intros Ha Ha' H. cbn [base64url_octets] in H. cbv zeta in H.
  injection H as E1 E2.
  destruct (low_sextets_zero a 0) as (_ & Z3 & Z4).
  destruct (low_sextets_zero a' 0) as (_ & Z3' & Z4').
  apply url_sextet_inj in E2; [|apply sextet_bound_mod ..].
  apply url_sextet_inj in E1;
    [| replace (a * 65536)%N with (a * 65536 + 0 * 256 + 0)%N by lia;
       apply group_bound; lia
     | replace (a' * 65536)%N with (a' * 65536 + 0 * 256 + 0)%N by lia;
       apply group_bound; lia ].
  apply (group_inj a 0 0 a' 0 0); try lia; cbv zeta;
    rewrite ?N.mul_0_l, ?N.add_0_r; congruence.
Qed.

Lemma pair_inj a b a' b' :
  octet a -> octet b -> octet a' -> octet b' ->
  base64url_octets [a; b] = base64url_octets [a'; b'] -> a = a' /\ b = b'.
Proof.
  unfold octet. intros Ha Hb Ha' Hb' H.
  cbn [base64url_octets] in H. cbv zeta in H.
  injection H as E1 E2 E3.
  destruct (low_sextets_zero a b) as (Z4 & _).
  destruct (low_sextets_zero a' b') as (Z4' & _).
  apply url_sextet_inj in E2; [|apply sextet_bound_mod ..].
  apply url_sextet_inj in E3; [|apply sextet_bound_mod ..].
  apply url_sextet_inj in E1;
    [| replace (a * 65536 + b * 256)%N
         with (a * 65536 + b * 256 + 0)%N by lia;
       apply group_bound; lia
     | replace (a' * 65536 + b' * 256)%N
         with (a' * 65536 + b' * 256 + 0)%N by lia;
       apply group_bound; lia ].
  destruct (group_inj a b 0 a' b' 0) as (-> & -> & _); try lia; cbv zeta;
    rewrite ?N.add_0_r; congruence.
Qed.

Lemma triple_inj a b c l a' b' c' l' :
  octet a -> octet b -> octet c -> octet a' -> octet b' -> octet c' ->
  base64url_octets (a :: b :: c :: l) = base64url_octets (a' :: b' :: c' :: l') ->
  a = a' /\ b = b' /\ c = c' /\ base64url_octets l = base64url_octets l'.
Proof.
  unfold octet. intros Ha Hb Hc Ha' Hb' Hc' H.
  cbn [base64url_octets] in H. cbv zeta in H.
  injection H as E1 E2 E3 E4 E5.
  apply url_sextet_inj in E2; [|apply sextet_bound_mod ..].
  apply url_sextet_inj in E3; [|apply sextet_bound_mod ..].
  apply url_sextet_inj in E4; [|apply sextet_bound_mod ..].
  apply url_sextet_inj in E1; [|apply group_bound; lia ..].
  destruct (group_inj a b c a' b' c') as (-> & -> & ->); try lia;
    try assumption.
  repeat split; assumption.
Qed.

Lemma base64url_octets_same_length l1 l2 :
  base64url_octets l1 = base64url_octets l2 -> length l1 = length l2.
Proof.
  intros H. apply (f_equal String.length) in H.
  rewrite !(proj1 (base64url_octets_length _)) in H.
  pose proof (Nat.div_mod_eq (4 * length l1 + 2) 3) as E1.
  pose proof (Nat.div_mod_eq (4 * length l2 + 2) 3) as E2.
  pose proof (Nat.mod_upper_bound (4 * length l1 + 2) 3 ltac:(discriminate)).
  pose proof (Nat.mod_upper_bound (4 * length l2 + 2) 3 ltac:(discriminate)).
  rewrite H in E1. lia.
Qed.

Lemma base64url_octets_inj_same_length (l1 : list N) :
  (forall l2, length l1 = length l2 -> Forall octet l1 -> Forall octet l2 ->
              base64url_octets l1 = base64url_octets l2 -> l1 = l2)
  /\ (forall a l2, length (a :: l1) = length l2 ->
        Forall octet (a :: l1) -> Forall octet l2 ->
        base64url_octets (a :: l1) = base64url_octets l2 -> a :: l1 = l2)
  /\ (forall a b l2, length (a :: b :: l1) = length l2 ->
        Forall octet (a :: b :: l1) -> Forall octet l2 ->
        base64url_octets (a :: b :: l1) = base64url_octets l2 ->
        a :: b :: l1 = l2).
Proof.
  induction l1 as [|c l1 (IH0 & IH1 & IH2)].
  - split; [|split].
    + intros [|? ?] L _ _ _; [reflexivity | discriminate L].
    + intros a [|a' [|? ?]] L F1 F2 H; try discriminate L; octets.
      f_equal. now apply single_inj.
    + intros a b [|a' [|b' [|? ?]]] L F1 F2 H; try discriminate L; octets.
      destruct (pair_inj a b a' b') as [-> ->]; auto.
  - split; [apply IH1|]. split; [intros a; apply IH2|].
    intros a b [|a' [|b' [|c' l2]]] L F1 F2 H; try discriminate L; octets.
    destruct (triple_inj a b c l1 a' b' c' l2) as (-> & -> & -> & Hrest); auto.
    do 3 f_equal. apply IH0; auto.
    cbn [length] in L. lia.
Qed.

Lemma base64url_octets_inj l1 l2 :
  Forall octet l1 -> Forall octet l2 ->
  base64url_octets l1 = base64url_octets l2 -> l1 = l2.
Proof.
  intros F1 F2 H.
  apply (proj1 (base64url_octets_inj_same_length l1)); auto.
  now apply base64url_octets_same_length.
Qed.

Lemma byte_of_hex_digits (b : byte) :
  byte_of_hex (Encoding.hex_digit (Byte.to_N b / 16))
    (Encoding.hex_digit (Byte.to_N b mod 16)) = Some b.
Proof. destruct b; vm_compute; reflexivity. Qed.

Lemma hex_encode_inj (l1 : list byte) : forall l2,
  hex_encode l1 = hex_encode l2 -> l1 = l2.
Proof.
  induction l1 as [|b l1 IH]; intros [|b' l2] H; simpl in H;
    try discriminate H; [reflexivity|].
  injection H as Hhi Hlo Hrest.
  pose proof (byte_of_hex_digits b) as Hb.
  rewrite Hhi, Hlo, byte_of_hex_digits in Hb.
  injection Hb as <-. f_equal. now apply IH.
Qed.

Lemma char_codes_inj (l1 l2 : list ascii) :
  map N_of_ascii l1 = map N_of_ascii l2 -> l1 = l2.
Proof.
  revert l2. induction l1 as [|a l1 IH]; intros [|a' l2] H;
    try discriminate H; [reflexivity|].
  injection H as Ha Hl. f_equal; [|now apply IH].
  rewrite <- (ascii_N_embedding a), <- (ascii_N_embedding a'). now rewrite Ha.
Qed.

Lemma char_codes_octets (l : list ascii) : Forall octet (map N_of_ascii l).
Proof.
  induction l as [|a l IH]; simpl; constructor;
    [apply N_ascii_bounded | exact IH].
Qed.

Lemma base64url_inj (k1 k2 : string) : base64url k1 = base64url k2 -> k1 = k2.
Proof.
  rewrite !base64url_as_octets. intros H.
  apply base64url_octets_inj in H; try apply char_codes_octets.
  apply char_codes_inj in H.
  rewrite <- (string_of_list_ascii_of_string k1),
    <- (string_of_list_ascii_of_string k2).
  now rewrite H.
Qed.

(** X2. The secure path loses nothing of the random bytes: two draws that
    differ in any of the 16 bytes give different secrets. *)
Theorem generateUrlSecret_distinct
    (P1 P2 : Platform) (random1 random2 : nat -> byte) :
  crypto_getRandomValues P1 = Some random1 ->
  crypto_getRandomValues P2 = Some random2 ->
  random_array random1 <> random_array random2 ->
  generateUrlSecret P1 <> generateUrlSecret P2.
Proof.
  intros H1 H2 Hne Heq. apply Hne.
  unfold generateUrlSecret in Heq. rewrite H1, H2 in Heq.
  apply base64url_inj in Heq. rewrite !hex_key_hex_encode in Heq.
  now apply hex_encode_inj.
Qed.

Lemma generateUrlSecret_distinct_witness :
  generateUrlSecret (browser "http://localhost:3333" (fun _ => x00))
  <> generateUrlSecret (browser "http://localhost:3333" (fun _ => x01)).
Proof.
  apply (generateUrlSecret_distinct
           (browser "http://localhost:3333" (fun _ => x00))
           (browser "http://localhost:3333" (fun _ => x01))
           (fun _ => x00) (fun _ => x01) eq_refl eq_refl).
  vm_compute. discriminate.
Defined.

(** ** The slug resolver, segment by segment *)

Lemma split_segment (k p : string) :
  no_dot k = true -> JS.split "." (k +:+ "." +:+ p) = k :: JS.split "." p.
Proof.
  unfold no_dot. induction k as [|c k IH]; cbn [Encoding.string_forallb]; intros H.
  - reflexivity.
  - apply andb_true_iff in H as [Hc Hk]. apply negb_true_iff in Hc.
    simpl. rewrite Hc. simpl in IH. now rewrite (IH Hk).
Qed.

Lemma split_single (k : string) : no_dot k = true -> JS.split "." k = [k].
Proof.
  unfold no_dot. induction k as [|c k IH]; cbn [Encoding.string_forallb]; intros H.
  - reflexivity.
  - apply andb_true_iff in H as [Hc Hk]. apply negb_true_iff in Hc.
    simpl. rewrite Hc. now rewrite (IH Hk).
Qed.

Lemma loop_falsy parts v :
  JS.truthy v = false -> parts <> [] -> getSlugValue_loop parts v = None.
Proof. intros Hf Hp. apply loop_stuck. now apply falsy_stuck. Qed.

(** X3. The resolver descends one segment at a time: at a one-segment
    path it yields the property when it is a string, and at [k.p] it
    yields what resolving [p] in the property [k] of the document yields;
    a document that is not an object or array, or that lacks [k], gives
    null. *)
Theorem getSlugValue_by_segments (doc : JSValue) (k p : string) :
  no_dot k = true -> k <> "" -> p <> "" ->
  getSlugValue doc k
  = match doc with
    | JObj _ | JArr _ =>
        match JS.property doc k with
        | Some (JStr s) => Some s
        | _ => None
        end
    | _ => None
    end
  /\ getSlugValue doc (k +:+ "." +:+ p)
     = match doc with
       | JObj _ | JArr _ =>
           match JS.property doc k with
           | Some child => getSlugValue child p
           | None => None
           end
       | _ => None
       end.
Proof.
  intros Hk Hne Hp.
  assert (JS.truthy_string k = true) as Tk by (destruct k; [congruence | reflexivity]).
  assert (JS.truthy_string p = true) as Tp by (destruct p; [congruence | reflexivity]).
  assert (JS.truthy_string (k +:+ "." +:+ p) = true) as Tkp
      by (destruct k; [congruence | reflexivity]).
  unfold getSlugValue. rewrite Tk, Tkp, Tp, split_segment, split_single by assumption.
  cbn [negb orb].
  assert (forall v, ~ is_container v ->
            forall rest,
              (if negb (JS.truthy v) || false then None
               else match getSlugValue_loop (k :: rest) v with
                    | Some value =>
                        if String.eqb (JS.typeof value) "string"
                        then match value with JStr s => Some s | _ => None end
                        else None
                    | None => None
                    end) = @None string) as Hscalar.
  { intros v Hv rest. destruct (JS.truthy v) eqn:Tv; [|reflexivity].
    cbn [negb orb].
    replace (getSlugValue_loop (k :: rest) v) with (@None JSValue);
      [reflexivity|].
    symmetry. apply loop_stuck, stuck_here. tauto. }
  split.
  - destruct doc; try (apply Hscalar; simpl; tauto);
      cbn [JS.truthy negb orb JS.typeof andb getSlugValue_loop];
      simpl String.eqb; unfold JS.has_property, JS.get;
      match goal with
      | |- context [JS.property ?d k] =>
          destruct (JS.property d k) as [[]|]; reflexivity
      end.
  - destruct doc; try (apply Hscalar; simpl; tauto);
      cbn [JS.truthy negb orb JS.typeof andb getSlugValue_loop];
      simpl String.eqb; unfold JS.has_property, JS.get;
      match goal with
      | |- context [JS.property ?d k] =>
          destruct (JS.property d k) as [child|]; [|reflexivity]
      end;
      (destruct (JS.truthy child) eqn:Tc; cbn [negb orb];
       [reflexivity | rewrite loop_falsy; auto using split_not_nil]).
Qed.

Lemma getSlugValue_by_segments_witness :
  getSlugValue (JObj [("slug", JObj [("current", JStr "hello")])]) "slug.current"
  = getSlugValue (JObj [("current", JStr "hello")]) "current".
Proof.
  exact (proj2 (getSlugValue_by_segments
                  (JObj [("slug", JObj [("current", JStr "hello")])])
                  "slug" "current" eq_refl
                  ltac:(discriminate) ltac:(discriminate))).
Defined.

(** ** The configuration map *)

Lemma typeConfigMap_last_from (l : list PreviewTypeConfig) :
  forall (m : gmap string PreviewTypeConfig) (t : string),
    fold_left (fun m typeConfig => <[type typeConfig := typeConfig]> m) l m !! t
    = match last (List.filter (fun tc => String.eqb (type tc) t) l) with
      | Some tc => Some tc
      | None => m !! t
      end.
Proof.
  induction l as [|tc l IH]; intros m t; simpl; [reflexivity|].
  rewrite IH. destruct (String.eqb_spec (type tc) t) as [<- | Hne].
  - destruct (List.filter _ l) as [|tc' l'] eqn:E; simpl.
    + apply lookup_insert_eq.
    + destruct (last (tc' :: l')) eqn:El; [reflexivity|].
      apply last_None in El. discriminate El.
  - destruct (last _); [reflexivity|]. now rewrite lookup_insert_ne.
Qed.

(** X4. When [types] lists a document type more than once, the last
    entry is the one the plugin uses; a type that is not listed has no
    configuration. *)
Theorem typeConfigMap_last_entry_wins
    (P : Platform) (config : EasyPreviewConfig) (t : string) :
  typeConfigMap (plugin_of P config) !! t
  = last (List.filter (fun tc => String.eqb (type tc) t) (types config)).
Proof.
  cbn [typeConfigMap plugin_of]. unfold build_typeConfigMap.
  rewrite typeConfigMap_last_from, lookup_empty. now destruct (last _).
Qed.


(** ** The action list *)

Section ActionFacts.

Context {Component : Type}.
Variable action : Component -> option string.
Variable preview : Component.

Lemma findIndex_none (l : list Component) :
  (forall a, In a l -> is_publish Component action a = false) ->
  Array_findIndex (is_publish Component action) l = (-1)%Z.
Proof.
  induction l as [|x l IH]; intros H; simpl; [reflexivity|].
  rewrite (H x (or_introl eq_refl)), IH; [reflexivity|].
  intros a Ha. apply H. now right.
Qed.

Lemma findIndex_first (before after : list Component) (p : Component) :
  (forall a, In a before -> is_publish Component action a = false) ->
  is_publish Component action p = true ->
  Array_findIndex (is_publish Component action) (before ++ p :: after)
  = Z.of_nat (length before).
Proof.
  intros Hb Hp. induction before as [|x before IH]; simpl.
  - now rewrite Hp.
  - rewrite (Hb x (or_introl eq_refl)), IH by (intros a Ha; apply Hb; now right).
    destruct (Z.ltb_spec (Z.of_nat (length before)) 0); lia.
Qed.

Lemma relative_index_nat (len n : nat) :
  relative_index len (Z.of_nat n) = Nat.min n len.
Proof.
  unfold relative_index.
  destruct (Z.ltb_spec (Z.of_nat n) 0) as [Hlt | _]; [lia|].
  now rewrite Nat2Z.id.
Qed.

Lemma slice_prefix (n : nat) (l : list Component) :
  Array_slice 0 (Some (Z.of_nat n)) l = take n l.
Proof.
  unfold Array_slice. change 0%Z with (Z.of_nat 0).
  rewrite !relative_index_nat. rewrite Nat.min_0_l, drop_0.
  rewrite Nat.sub_0_r.
  destruct (Nat.min_spec n (length l)) as [[_ ->] | [Hle ->]]; [reflexivity|].
  now rewrite !firstn_all2 by lia.
Qed.

Lemma slice_suffix (n : nat) (l : list Component) :
  Array_slice (Z.of_nat n) None l = drop n l.
Proof.
  unfold Array_slice. rewrite relative_index_nat.
  destruct (Nat.min_spec n (length l)) as [[_ ->] | [Hle ->]].
  - apply firstn_all2. rewrite length_drop. lia.
  - rewrite Nat.sub_diag. simpl. symmetry. apply skipn_all2. lia.
Qed.

(** X5. The plugin adds its action to the host's list without dropping
    or reordering any: right after the first action whose [action] is
    "publish", or at the end when there is none. *)
Theorem document_actions_inserts_after_publish (prev : list Component) :
  ((forall a, In a prev -> is_publish Component action a = false) ->
   document_actions Component action preview prev = prev ++ [preview])
  /\ (forall before p after,
        prev = before ++ p :: after ->
        (forall a, In a before -> is_publish Component action a = false) ->
        is_publish Component action p = true ->
        document_actions Component action preview prev
        = before ++ p :: preview :: after).
Proof.
  unfold document_actions. split.
  - intros H. now rewrite findIndex_none.
  - intros before p after -> Hb Hp. rewrite findIndex_first by assumption.
    destruct (Z.leb_spec 0 (Z.of_nat (length before))); [|lia].
    replace (Z.of_nat (length before) + 1)%Z
      with (Z.of_nat (S (length before))) by lia.
    rewrite slice_prefix, slice_suffix.
    replace (before ++ p :: after) with ((before ++ [p]) ++ after)
      by now rewrite <- app_assoc.
    rewrite take_app_length', drop_app_length' by (rewrite length_app; simpl; lia).
    now rewrite <- !app_assoc.
Qed.

End ActionFacts.

Lemma document_actions_inserts_after_publish_witness :
  document_actions (option string) (fun a => a) (Some "preview")
    [Some "publish"; None; Some "delete"]
  = [Some "publish"; Some "preview"; None; Some "delete"]
  /\ document_actions (option string) (fun a => a) (Some "preview")
       [Some "duplicate"; Some "delete"]
     = [Some "duplicate"; Some "delete"; Some "preview"].
Proof.
  split.
  - apply (proj2 (document_actions_inserts_after_publish (fun a => a)
                    (Some "preview") [Some "publish"; None; Some "delete"])
             [] (Some "publish") [None; Some "delete"] eq_refl).
    + intros a [].
    + reflexivity.
  - apply (proj1 (document_actions_inserts_after_publish (fun a => a)
                    (Some "preview") [Some "duplicate"; Some "delete"])).
    intros a [<- | [<- | []]]; reflexivity.
Defined.

(** ** The handler, path by path *)


(** X7. For a configured type with neither a draft nor a published
    document the request is one "No document found" error toast: no slug
    resolution, no secret, no write, nothing pending. *)
Theorem missing_document_no_effects
    (P : Platform) (plugin : Plugin) (props : ActionProps)
    (ds : list StoredDoc) (typeConfig : PreviewTypeConfig) :
  typeConfigMap plugin !! props_type props = Some typeConfig ->
  JS.truthy (draft props) = false ->
  JS.truthy (published props) = false ->
  preview_request P plugin props (initial ds)
  = (Returned tt,
     {| dataset := ds;
        log := [EvToast "error" "No document found"
                  "Cannot preview: document not found"];
        pending := [] |}).
Proof.
  intros Hc Hd Hp. unfold_handler. rewrite Hc. unfold JS.or. rewrite Hd, Hp.
  reflexivity.
Qed.

(** X8. When the document has no string, or the empty string, at the slug
    path, the request resolves the slug, pushes the "Missing slug" error
    toast naming that path and does nothing else: no secret is generated
    and nothing is written.  The path is the type's own [slugField] when
    it is a non-empty string, else the configuration's, else
    "slug.current". *)
Theorem missing_slug_no_effects
    (P : Platform) (plugin : Plugin) (props : ActionProps)
    (ds : list StoredDoc) (typeConfig : PreviewTypeConfig) :
  typeConfigMap plugin !! props_type props = Some typeConfig ->
  JS.truthy (JS.or (draft props) (published props)) = true ->
  (getSlugValue (JS.or (draft props) (published props))
     (effective_slugField typeConfig plugin) = None
   \/ getSlugValue (JS.or (draft props) (published props))
        (effective_slugField typeConfig plugin) = Some "") ->
  preview_request P plugin props (initial ds)
  = (Returned tt,
     {| dataset := ds;
        log := [EvCall "getSlugValue";
                EvToast "error" "Missing slug"
                  ("Document missing required field: "
                   +:+ effective_slugField typeConfig plugin)];
        pending := [] |})
  /\ (forall f, slugField typeConfig = Some f -> f <> "" ->
                effective_slugField typeConfig plugin = f)
  /\ (slugField typeConfig = None \/ slugField typeConfig = Some "" ->
      forall f, config_slugField (plugin_config plugin) = Some f -> f <> "" ->
                effective_slugField typeConfig plugin = f)
  /\ (slugField typeConfig = None \/ slugField typeConfig = Some "" ->
      config_slugField (plugin_config plugin) = None
      \/ config_slugField (plugin_config plugin) = Some "" ->
      effective_slugField typeConfig plugin = "slug.current").
Proof.
  intros Hc Hd Hs. split; [|split; [|split]].
  - unfold_handler. rewrite Hc, Hd. cbn [negb].
    fold (effective_slugField typeConfig plugin).
    destruct Hs as [-> | ->]; reflexivity.
  - intros f Hf Hne. unfold effective_slugField. rewrite Hf.
    destruct f; [congruence | reflexivity].
  - intros Ht f Hf Hne. unfold effective_slugField. rewrite Hf.
    destruct Ht as [-> | ->]; (destruct f; [congruence | reflexivity]).
  - intros Ht Hg. unfold effective_slugField.
    destruct Ht as [-> | ->]; destruct Hg as [-> | ->]; reflexivity.
Qed.

(** X9. The handler works on the draft when there is one, whatever the
    published document is, and on the published document otherwise. *)
Theorem draft_preferred_over_published
    (P : Platform) (plugin : Plugin) (props : ActionProps) (st : State) :
  (JS.truthy (draft props) = true ->
   forall other,
     handlePreview P plugin (with_documents props (draft props) other) st
     = handlePreview P plugin props st)
  /\ (JS.truthy (draft props) = false ->
      handlePreview P plugin
        (with_documents props (published props) (published props)) st
      = handlePreview P plugin props st).
Proof.
  split.
  - intros Hd other.
    unfold handlePreview, handlePreview_try, try_catch, with_documents.
    cbn [draft published props_id props_type]. unfold JS.or. now rewrite !Hd.
  - intros Hd.
    unfold handlePreview, handlePreview_try, try_catch, with_documents.
    cbn [draft published props_id props_type]. unfold JS.or. rewrite !Hd.
    destruct (JS.truthy (published props)) eqn:Hp; cbv iota; rewrite ?Hp;
      reflexivity.
Qed.

Lemma missing_document_no_effects_witness :
  fst (preview_request example_platform
         (plugin_of example_platform example_config) absent_page
         (initial example_dataset)) = Returned tt.
Proof.
  rewrite (missing_document_no_effects example_platform
             (plugin_of example_platform example_config) absent_page
             example_dataset page_config);
    reflexivity.
Defined.

Lemma missing_slug_no_effects_witness :
  fst (preview_request example_platform
         (plugin_of example_platform example_config) untitled_page
         (initial example_dataset)) = Returned tt
  /\ effective_slugField page_config (plugin_of example_platform example_config)
     = "slug.current".
Proof.
  destruct (missing_slug_no_effects example_platform
              (plugin_of example_platform example_config) untitled_page
              example_dataset page_config eq_refl eq_refl
              (or_introl eq_refl)) as (Hrun & _ & _ & Hdefault).
  split; [now rewrite Hrun|].
  apply Hdefault; left; reflexivity.
Defined.

Lemma draft_preferred_over_published_witness :
  handlePreview example_platform (plugin_of example_platform example_config)
    (with_documents example_props (draft example_props) (JStr "anything"))
    (initial [])
  = handlePreview example_platform (plugin_of example_platform example_config)
      example_props (initial []).
Proof.
  apply (proj1 (draft_preferred_over_published example_platform
                  (plugin_of example_platform example_config)
                  example_props (initial []))).
  reflexivity.
Defined.

(** ** After the commit *)

(** X10. Progress is not rolled back: when the commit went through and
    [new URL] then throws (as it does without a usable [previewUrl]), the
    handler still returns normally, the secret record stays in the
    dataset, the cleanup has been dispatched, no window is opened, and the
    request ends with the "Preview failed" error toast carrying the
    error's message. *)
Theorem url_failure_keeps_secret
    (P : Platform) (plugin : Plugin) (props : ActionProps)
    (ds : list StoredDoc) (doc : SecretDoc) (tag : string) (e : Exn) :
  commit_rejection P = None ->
  In (EvCommit doc tag) (log (snd (handlePreview P plugin props (initial ds)))) ->
  URL_new P (plugin_draftRoute plugin) (plugin_previewUrl plugin) = Thrown e ->
  let run := handlePreview P plugin props (initial ds) in
  fst run = Returned tt
  /\ dataset (snd run) = createOrReplace (stored P doc) ds
  /\ In (stored P doc) (dataset (snd run))
  /\ pending (snd run) = [CleanupAwaitingDelete expired_secrets_query]
  /\ (forall href target, ~ In (EvWindowOpen href target) (log (snd run)))
  /\ exists before,
       log (snd run)
       = before ++ [EvConsoleError "Preview failed:" e;
                    EvToast "error" "Preview failed" (error_description e)].
Proof.
  intros Hok Hin He. cbv zeta. revert Hin.
  handler_paths P plugin props; intros Hin; in_log; try congruence.
  assert (thrown = e) as -> by congruence.
  injection Hin as <- <-.
  split; [reflexivity|]. split; [reflexivity|].
  split; [left; reflexivity|]. split; [reflexivity|].
  split; [intros href target Hw; in_log|].
  eexists [_; _; _; _; _]. reflexivity.
Qed.

Lemma url_failure_keeps_secret_witness :
  let run :=
    handlePreview example_platform
      (plugin_of example_platform config_without_previewUrl)
      example_props (initial []) in
  fst run = Returned tt
  /\ dataset (snd run) = [stored example_platform example_secretDoc].
Proof.
  destruct (url_failure_keeps_secret example_platform
              (plugin_of example_platform config_without_previewUrl)
              example_props [] example_secretDoc "sanity.preview-url-secret"
              (JSError "Invalid URL") eq_refl
              ltac:(vm_compute; tauto) eq_refl) as (H1 & H2 & _).
  split; [exact H1 | exact H2].
Defined.


(** ** The life of a secret record *)

Lemma stored_secret_selected (P P' : Platform) (doc : SecretDoc) :
  secretDoc_type doc = secret_record_type ->
  GROQ.selects (server_now P') expired_secrets_query (stored P doc)
  = (3600 <=? server_now P' - server_now P)%Z.
Proof.
  intros Ht. rewrite selects_expired. cbn [_type _updatedAt stored].
  rewrite Ht. unfold secret_record_type. rewrite String.eqb_refl.
  cbn [andb]. destruct (Z.leb_spec (server_now P) (server_now P' - 3600));
    destruct (Z.leb_spec 3600 (server_now P' - server_now P)); lia || reflexivity.
Qed.

(** X12. A secret record the handler has written is one the cleanup
    sweep will take: a sweep that goes through keeps it while it is less
    than 3600 seconds old on the dataset's clock and removes it from then
    on. *)
Theorem written_secret_expires_after_an_hour
    (P : Platform) (plugin : Plugin) (props : ActionProps)
    (ds : list StoredDoc) (doc : SecretDoc) (tag : string) (P' : Platform) :
  commit_rejection P = None ->
  In (EvCommit doc tag) (log (snd (handlePreview P plugin props (initial ds)))) ->
  delete_rejection P' = None ->
  let written := snd (handlePreview P plugin props (initial ds)) in
  In (stored P doc) (dataset written)
  /\ (In (stored P doc) (dataset (snd (cleanupExpiredSecrets P' written)))
      <-> (server_now P' - server_now P < 3600)%Z).
Proof.
  intros Hok Hin Hdel. cbv zeta.
  assert (dataset (snd (handlePreview P plugin props (initial ds)))
          = createOrReplace (stored P doc) ds
          /\ secretDoc_type doc = secret_record_type) as [Hds Hty].
  { revert Hin. handler_paths P plugin props; intros Hin; in_log;
      try congruence; injection Hin as <- <-; split; reflexivity. }
  rewrite cleanup_dataset, Hds by assumption.
  split; [left; reflexivity|].
  rewrite filter_In, (stored_secret_selected P P' doc Hty), negb_true_iff,
    Z.leb_gt.
  split; [tauto | intros H; split; [left; reflexivity | exact H]].
Qed.

Lemma written_secret_expires_after_an_hour_witness :
  let written :=
    snd (handlePreview example_platform
           (plugin_of example_platform example_config) example_props
           (initial [])) in
  In (stored example_platform example_secretDoc)
     (dataset (snd (cleanupExpiredSecrets (later_platform 3599) written)))
  /\ ~ In (stored example_platform example_secretDoc)
       (dataset (snd (cleanupExpiredSecrets (later_platform 3600) written))).
Proof.
  pose proof (fun seconds =>
    proj2 (written_secret_expires_after_an_hour example_platform
             (plugin_of example_platform example_config) example_props []
             example_secretDoc "sanity.preview-url-secret"
             (later_platform seconds) eq_refl
             ltac:(vm_compute; tauto) eq_refl)) as H.
  split.
  - apply (H 3599%Z). vm_compute. reflexivity.
  - intros Hin. apply (H 3600%Z) in Hin. vm_compute in Hin. discriminate Hin.
Defined.

Lemma filter_filter_same {A : Type} (f : A -> bool) (l : list A) :
  List.filter f (List.filter f l) = List.filter f l.
Proof.
  induction l as [|x l IH]; simpl; [reflexivity|].
  destruct (f x) eqn:E; simpl; [rewrite E; f_equal|]; exact IH.
Qed.

Lemma filter_sublist {A : Type} (f : A -> bool) (l : list A) :
  sublist (List.filter f l) l.
Proof.
  induction l as [|x l IH]; simpl; [constructor|].
  destruct (f x); [now apply sublist_skip | now apply sublist_cons].
Qed.

(** X13. Whatever the dataset answers, the sweep only removes records: what
    is left is a sub-sequence of what was there, no record of another type
    is ever removed, and sweeping again at the same time changes nothing. *)
Theorem cleanup_only_removes (P : Platform) (st : State) :
  let swept := snd (cleanupExpiredSecrets P st) in
  sublist (dataset swept) (dataset st)
  /\ (forall d, In d (dataset st) -> _type d <> secret_record_type ->
                In d (dataset swept))
  /\ dataset (snd (cleanupExpiredSecrets P swept)) = dataset swept.
Proof.
  cbv zeta.
  unfold cleanupExpiredSecrets, try_catch, bind, client_delete_request,
    client_delete_settle, cleanupExpiredSecrets_catch, throw, modify_dataset, emit.
  destruct (delete_rejection P); cbn [dataset log pending fst snd].
  - split; [reflexivity|]. split; [auto | reflexivity].
  - split; [apply filter_sublist|]. split; [|apply filter_filter_same].
    intros d Hin Hty. apply filter_In. split; [exact Hin|].
    apply negb_true_iff, not_true_iff_false. rewrite selects_expired_iff. tauto.
Qed.

(** X14. A whole preview request, with its cleanup settled, leaves every
    record alone that is neither an expired secret nor the record with
    the request's own id, and adds at most one record: a secret record
    with the id "drafts." + uuid, stamped by the dataset and carrying the
    id of the previewed document as its source. *)
Theorem request_touches_only_its_record
    (P : Platform) (plugin : Plugin) (props : ActionProps) (ds : list StoredDoc) :
  let after := dataset (snd (preview_request P plugin props (initial ds))) in
  (forall d, In d ds ->
             _id d <> "drafts." +:+ uuid P ->
             ~ (_type d = secret_record_type /\ (3600 <= age P d)%Z) ->
             In d after)
  /\ (forall d, In d after ->
                In d ds
                \/ (_id d = "drafts." +:+ uuid P
                    /\ _type d = secret_record_type
                    /\ _updatedAt d = server_now P
                    /\ JS.own_lookup "source" (fields d)
                       = Some (JStr (props_id props)))).
Proof.
  cbv zeta.
  assert (forall d l, In d l ->
            ~ (_type d = secret_record_type /\ (3600 <= age P d)%Z) ->
            In d (List.filter
                    (fun d => negb (GROQ.selects (server_now P)
                                      expired_secrets_query d)) l)) as Hkeep.
  { intros d l Hin Hn. apply filter_In. split; [exact Hin|].
    apply negb_true_iff, not_true_iff_false. now rewrite selects_expired_iff. }
  assert (forall d x, In d ds -> _id d <> _id x ->
                      In d (createOrReplace x ds)) as Hother.
  { intros d x Hin Hne. right. apply filter_In. split; [exact Hin|].
    apply negb_true_iff, String.eqb_neq, Hne. }
  handler_paths P plugin props; settle P.
  all: split; [intros d Hin Hid Hexp | intros d Hin].
  all: try (exact Hin).
  all: try (left; exact Hin).
  all: try (apply Hkeep; [|exact Hexp]).
  all: try (apply Hother; [exact Hin | exact Hid]).
  all: try (apply filter_In in Hin as [Hin _]).
  all: destruct Hin as [<- | Hin];
    [ right; repeat split; reflexivity
    | left; apply filter_In in Hin as [Hin _]; exact Hin ].
Qed.

(** ** The opened URL, character by character *)

Lemma two_parameters_serialized (secret pathname : string) :
  URLSearchParams.serialize
    (URLSearchParams.set "sanity-preview-pathname" pathname
       (URLSearchParams.set "sanity-preview-secret" secret []))
  = "sanity-preview-secret=" +:+ URLSearchParams.encode secret
    +:+ "&sanity-preview-pathname=" +:+ URLSearchParams.encode pathname.
Proof.
  change (URLSearchParams.set "sanity-preview-pathname" pathname
            (URLSearchParams.set "sanity-preview-secret" secret []))
    with [("sanity-preview-secret", secret);
          ("sanity-preview-pathname", pathname)].
  cbn [URLSearchParams.serialize].
  change (URLSearchParams.encode "sanity-preview-secret")
    with "sanity-preview-secret".
  change (URLSearchParams.encode "sanity-preview-pathname")
    with "sanity-preview-pathname".
  reflexivity.
Qed.

(** X15. With a secure random source, and a route that resolves without
    query or fragment, the address the handler opens (in a new tab) is
    exactly the resolved address followed by
    [?sanity-preview-secret=<secret>&sanity-preview-pathname=<pathname>]:
    the secret appears as generated, with no escaping, and the pathname
    (prefix + "/" + slug, or "/" + slug) form-encoded. *)
Theorem opened_url_shape
    (P : Platform) (plugin : Plugin) (props : ActionProps) (ds : list StoredDoc)
    (getRandomValues : nat -> byte) (resolved : URL) (href target : string) :
  crypto_getRandomValues P = Some getRandomValues ->
  URL_new P (plugin_draftRoute plugin) (plugin_previewUrl plugin) = Returned resolved ->
  searchParams resolved = [] ->
  hash resolved = None ->
  In (EvWindowOpen href target)
     (log (snd (handlePreview P plugin props (initial ds)))) ->
  target = "_blank"
  /\ exists typeConfig slug,
       typeConfigMap plugin !! props_type props = Some typeConfig
       /\ getSlugValue (JS.or (draft props) (published props))
            (effective_slugField typeConfig plugin) = Some slug
       /\ href
          = origin_and_path resolved
            +:+ "?sanity-preview-secret=" +:+ generateUrlSecret P
            +:+ "&sanity-preview-pathname="
            +:+ URLSearchParams.encode
                  (preview_pathname
                     (resolve_urlPrefix typeConfig
                        (JS.or (draft props) (published props)))
                     slug).
Proof.
  intros Hrnd Hu Hq Hh.
  handler_paths P plugin props; intros Hin; in_log.
  injection Hin as <- <-. split; [reflexivity|].
  exists typeConfig, (String c slug). split; [reflexivity|].
  split; [exact Hslug|].
  assert (url0 = resolved) as -> by congruence.
  unfold URL_toString, URL_searchParams_set.
  cbn [origin_and_path searchParams hash]. rewrite Hq, Hh.
  pose proof (two_parameters_serialized (generateUrlSecret P)
                (preview_pathname
                   (resolve_urlPrefix typeConfig
                      (JS.or (draft props) (published props)))
                   (String c slug))) as Hser.
  rewrite (generated_secret_unescaped P getRandomValues Hrnd) in Hser.
  destruct (URLSearchParams.set "sanity-preview-pathname" _ _) as [|kv l] eqn:E.
  - apply (f_equal (@length _)) in E. discriminate E.
  - rewrite Hser, append_empty_r. reflexivity.
Qed.

Lemma opened_url_shape_witness :
  exists typeConfig slug,
    typeConfigMap (plugin_of example_platform example_config) !! "blogPost"
    = Some typeConfig
    /\ getSlugValue (draft example_props)
         (effective_slugField typeConfig
            (plugin_of example_platform example_config)) = Some slug
    /\ "http://localhost:3000/api/draft?sanity-preview-secret=MDAwMDAwMDAwMDAwMDAwMDAwMDAwMDAwMDAwMDAwMDA&sanity-preview-pathname=%2Fblog%2Fhello"
       = "http://localhost:3000/api/draft"
         +:+ "?sanity-preview-secret=" +:+ generateUrlSecret example_platform
         +:+ "&sanity-preview-pathname="
         +:+ URLSearchParams.encode
               (preview_pathname
                  (resolve_urlPrefix typeConfig (draft example_props)) slug).
Proof.
  exact (proj2 (opened_url_shape example_platform
                  (plugin_of example_platform example_config) example_props []
                  (fun _ => x00)
                  {| origin_and_path := "http://localhost:3000/api/draft";
                     searchParams := []; hash := None |}
                  "http://localhost:3000/api/draft?sanity-preview-secret=MDAwMDAwMDAwMDAwMDAwMDAwMDAwMDAwMDAwMDAwMDA&sanity-preview-pathname=%2Fblog%2Fhello"
                  "_blank" eq_refl eq_refl eq_refl eq_refl
                  ltac:(vm_compute; tauto))).
Defined.
